(** * Centrometal boiler integration: session controller and watchdog

    A shallow embedding of the session lifecycle code of
    [custom_components/centrometal_boiler/__init__.py] (class
    [WebBoilerSystem], [async_setup_entry], [async_unload_entry]) and of the
    health monitor of [custom_components/centrometal_boiler/sensor.py]
    ([_latest_param_ts], [_start_or_replace_watchdog] and its [_tick]),
    followed by the entity factories of [sensors/] that the sensor
    platform's [async_setup_entry] runs on every device and by its
    de-duplication pass.

    The vendor client library and the host platform are collaborators the
    code calls into.  They are modelled as an environment: every call into
    them is answered by an oracle, every reading of the wall clock by a
    stream of readings, and every effect the code has on them is recorded as
    an event.  Clock readings are epoch seconds; Python holds them as floats
    and compares their differences with the intervals, the model keeps them
    as exact integers. *)

From Stdlib Require Import ZArith Lia List String Bool.
From stdpp Require Import base option list gmap strings pretty fin_maps.
Import ListNotations.
Local Open Scope string_scope.
Local Open Scope list_scope.
Local Open Scope Z_scope.

(** ** Results, events and the environment *)

(** A Python call either returns or raises; the exception carries its
    message. *)
Inductive result (A : Type) : Type :=
| Ok (a : A)
| Raised (msg : string).
Arguments Ok {A} a.
Arguments Raised {A} msg.

(** The methods of the Remote Session Client ([WebBoilerClient]) and of the
    host that the code awaits or calls. *)
Inductive call : Type :=
| Login
| GetConfiguration
| StartWebsocket
| CloseWebsocket
| Refresh
| Relogin
| IsWebsocketConnected
| CloseSession
| AsyncUnloadPlatforms.

(** What the environment answers to one call.  The client's contract is
    boolean; where the code ignores the value so does the model. *)
Inductive outcome : Type :=
| Returns (b : bool)
| Raises (msg : string).

Inductive level : Type := Debug | Info | Warning | Error.

(** Why the watchdog wants a reload ([reload_reason] in [_tick]). *)
Inductive reason : Type :=
| WebsocketDisconnected
| NoTimestamps
| StaleData (age : Z).

(** A callback registered with the host's [async_track_time_interval]:
    the closure [_on_interval] of a session (it captures [self]), or the
    closure [_tick] of a watchdog (it captures the [store] dict, the account
    name and the config entry). *)
Inductive callback : Type :=
| CbTick (system : nat)
| CbWatchdog (store : nat) (username : string) (entry : string).

(** Everything observable the code does, in the order it does it.  A log
    record keeps its level and its message; a [%s] that stands for the
    account name is left as it is. *)
Inductive event : Type :=
| EvCall (c : call)
| EvInvokeRelogin
| EvSetRelogin (t : Z)
| EvSetRefresh (t : Z)
| EvTrack (id : nat) (cb : callback)
| EvUnsub (id : nat)
| EvListenStop (system : nat)
| EvForwardSetups (entry : string)
| EvCreateReloadTask (entry : string)
| EvCooldown (r : reason) (remaining : Z)
| EvReloading (r : reason)
| EvLog (lvl : level) (msg : string).

Global Instance call_eq_dec : EqDecision call.
Proof. solve_decision. Defined.
Global Instance level_eq_dec : EqDecision level.
Proof. solve_decision. Defined.
Global Instance reason_eq_dec : EqDecision reason.
Proof. solve_decision. Defined.
Global Instance callback_eq_dec : EqDecision callback.
Proof. solve_decision. Defined.
Global Instance event_eq_dec : EqDecision event.
Proof. solve_decision. Defined.

(** ** Parameter timestamps, as [_latest_param_ts] sees them *)

(** The exception classes [int(ts)] can raise. *)
Inductive exn_class : Type := ValueError | TypeError | OverflowError | OtherError.

(** A Python value stored under ["timestamp"], by what [int(ts)] does with
    it: an int, a numeric string or a finite float converts; a non-numeric
    string or a NaN raises [ValueError]; a list or a dict raises
    [TypeError]; a float infinity, of either sign, raises [OverflowError].
    An exception comes with its message, [str(ex)]. *)
Inductive int_result : Type :=
| IntReturns (z : Z)
| IntRaises (e : exn_class) (msg : string).

(** [p.get("timestamp")]: the key is missing, holds [None], or holds a
    value. *)
Inductive timestamp : Type :=
| TsMissing
| TsNone
| TsValue (conv : int_result).

(** [WebBoilerParameter] and [WebBoilerDevice] are dicts; only the fields
    the scan reads are kept.  [client.data] and [device["parameters"]] are
    dicts iterated with [.values()], in insertion order. *)
Record parameter : Type := { p_timestamp : timestamp }.
Record device : Type := { parameters : option (list (string * parameter)) }.
Definition device_collection : Type := list (string * device).

(** ** The environment *)

Record Env : Type := mkEnv {
  responses : nat → outcome;      (* answer to the n-th call *)
  ncalls : nat;                   (* calls made so far *)
  clock : nat → Z;                (* n-th reading of the wall clock, epoch seconds *)
  nreads : nat;                   (* readings taken so far *)
  unsub_raises : nat → bool;      (* does calling the cancel handle of timer i raise *)
  timers : gmap nat callback;     (* the host's active periodic timers *)
  next_id : nat;                  (* next fresh identity (objects, timer handles) *)
  client_data : nat → device_collection   (* [data] of each client object *)
}.

(** ** A state and exception monad with an event log *)

Definition M (S A : Type) : Type := S → result A * S * list event.

Global Instance M_ret {S} : MRet (M S) := λ A a s, (Ok a, s, []).
Global Instance M_bind {S} : MBind (M S) := λ A B f m s,
  match m s with
  | (Ok a, s', evs) =>
      match f a s' with
      | (r, s'', evs') => (r, s'', evs ++ evs')
      end
  | (Raised msg, s', evs) => (Raised msg, s', evs)
  end.

Definition raise {S A} (msg : string) : M S A := λ s, (Raised msg, s, []).

(** [try: body except Exception as ex: handler ex]; what [body] did to the
    state before raising stays done. *)
Definition try_except {S A} (body : M S A) (handler : string → M S A) : M S A :=
  λ s,
  match body s with
  | (Ok a, s', evs) => (Ok a, s', evs)
  | (Raised msg, s', evs) =>
      match handler msg s' with
      | (r, s'', evs') => (r, s'', evs ++ evs')
      end
  end.

Definition emit {S} (e : event) : M S unit := λ s, (Ok tt, s, [e]).
Definition get_state {S} : M S S := λ s, (Ok s, s, []).
Definition put_state {S} (s : S) : M S unit := λ _, (Ok tt, s, []).

Definition out {S A} (r : result A * S * list event) : result A := r.1.1.
Definition post {S A} (r : result A * S * list event) : S := r.1.2.
Definition emitted {S A} (r : result A * S * list event) : list event := r.2.

(** *** Primitives of the environment, for any state that carries an [Env] *)

Definition set_ncalls (n : nat) (e : Env) : Env :=
  mkEnv (responses e) n (clock e) (nreads e) (unsub_raises e) (timers e)
        (next_id e) (client_data e).
Definition set_nreads (n : nat) (e : Env) : Env :=
  mkEnv (responses e) (ncalls e) (clock e) n (unsub_raises e) (timers e)
        (next_id e) (client_data e).
Definition set_timers (t : gmap nat callback) (e : Env) : Env :=
  mkEnv (responses e) (ncalls e) (clock e) (nreads e) (unsub_raises e) t
        (next_id e) (client_data e).
Definition set_next_id (n : nat) (e : Env) : Env :=
  mkEnv (responses e) (ncalls e) (clock e) (nreads e) (unsub_raises e) (timers e)
        n (client_data e).

(** One call into the client or the host: recorded, then answered by the
    oracle. *)
Definition do_call {X} (c : call) : M (X * Env) bool :=
  λ '(x, e),
  let e' := set_ncalls (S (ncalls e)) e in
  match responses e (ncalls e) with
  | Returns b => (Ok b, (x, e'), [EvCall c])
  | Raises msg => (Raised msg, (x, e'), [EvCall c])
  end.

(** [time.time()] and [datetime.datetime.now().timestamp()]: both read the
    wall clock.  Readings are epoch seconds, kept as exact numbers. *)
Definition read_clock {X} : M (X * Env) Z :=
  λ '(x, e), (Ok (clock e (nreads e)), (x, set_nreads (S (nreads e)) e), []).

(** [async_track_time_interval(hass, cb, period)]: installs a periodic timer
    and returns its cancel handle. *)
Definition async_track_time_interval {X} (cb : callback) : M (X * Env) nat :=
  λ '(x, e),
  let id := next_id e in
  (Ok id, (x, set_next_id (S id) (set_timers (<[id := cb]> (timers e)) e)),
   [EvTrack id cb]).

(** Calling a cancel handle: the timer is removed from the host's active
    timers, unless the handle raises, in which case nothing is known to have
    been cancelled. *)
Definition call_unsub {X} (id : nat) : M (X * Env) unit :=
  λ '(x, e),
  if unsub_raises e id
  then (Raised "unsub failed", (x, e), [EvUnsub id])
  else (Ok tt, (x, set_timers (delete id (timers e)) e), [EvUnsub id]).

Definition log {S} (lvl : level) (msg : string) : M S unit := emit (EvLog lvl msg).

(** ** The session controller: class [WebBoilerSystem] *)

Record WebBoilerSystem : Type := mkSystem {
  sys_id : nat;                     (* identity of the object; its client shares it *)
  username : string;
  last_relogin_timestamp : Z;
  last_refresh_timestamp : Z;
  _tick_unsub : option nat
}.

(** A method runs on [self] and the environment. *)
Definition Frame : Type := WebBoilerSystem * Env.

Definition self : M Frame WebBoilerSystem := λ '(s, e), (Ok s, (s, e), []).

Definition set_last_relogin_timestamp (t : Z) : M Frame unit :=
  λ '(s, e),
  (Ok tt,
   (mkSystem (sys_id s) (username s) t (last_refresh_timestamp s) (_tick_unsub s), e),
   [EvSetRelogin t]).

Definition set_last_refresh_timestamp (t : Z) : M Frame unit :=
  λ '(s, e),
  (Ok tt,
   (mkSystem (sys_id s) (username s) (last_relogin_timestamp s) t (_tick_unsub s), e),
   [EvSetRefresh t]).

Definition set_tick_unsub (u : option nat) : M Frame unit :=
  λ '(s, e),
  (Ok tt,
   (mkSystem (sys_id s) (username s) (last_relogin_timestamp s)
             (last_refresh_timestamp s) u, e),
   []).

(** A method of [self.web_boiler_client] *)
Definition client_call (c : call) : M Frame bool := do_call c.

(** [len(self.web_boiler_client.data)] *)
Definition data_len : M Frame nat :=
  λ '(s, e), (Ok (length (client_data e (sys_id s))), (s, e), []).

(** [WebBoilerSystem.start] *)
Definition start : M Frame bool :=
  log Debug "Starting Centrometal Boiler System %s";;
  s ← self;
  try_except
    (logged_in ← client_call Login;
     if negb logged_in
     then raise ("Cannot login to Centrometal web boiler server " +:+ username s)
     else
       got_configuration ← client_call GetConfiguration;
       if negb got_configuration
       then raise ("Cannot get configuration from Centrometal server " +:+ username s)
       else
         n ← data_len;
         if (n =? 0)%nat
         then raise ("No device found to Centrometal web boiler server " +:+ username s)
         else
           client_call StartWebsocket;;
           client_call Refresh;;
           t ← read_clock;
           set_last_refresh_timestamp t;;
           mret true)
    (λ ex, log Error ("Authentication failed : " +:+ ex);; mret false).

(** [WebBoilerSystem.cancel_tick] *)
Definition cancel_tick : M Frame unit :=
  s ← self;
  match _tick_unsub s with
  | Some u =>
      try_except (call_unsub u) (λ _, mret tt);;
      set_tick_unsub None
  | None => mret tt
  end.

(** [WebBoilerSystem.start_tick]; the period is one second. *)
Definition start_tick : M Frame unit :=
  cancel_tick;;
  s ← self;
  u ← async_track_time_interval (CbTick (sys_id s));
  set_tick_unsub (Some u).

(** [WebBoilerSystem.stop] *)
Definition stop : M Frame bool :=
  log Debug "Stopping Centrometal WebBoilerSystem %s";;
  client_call CloseWebsocket.

(** [WebBoilerSystem.relogin] *)
Definition relogin : M Frame unit :=
  emit EvInvokeRelogin;;
  t ← read_clock;
  set_last_relogin_timestamp t;;
  try_except (client_call CloseWebsocket;; mret tt) (λ _, mret tt);;
  try_except (client_call CloseSession;; mret tt) (λ _, mret tt);;
  relogin_successful ← client_call Relogin;
  if (relogin_successful : bool)
  then
    client_call StartWebsocket;;
    ok ← client_call Refresh;
    if (ok : bool)
    then t' ← read_clock; set_last_refresh_timestamp t'
    else mret tt
  else log Warning "WebBoilerSystem::tick failed to relogin %s".

Section Intervals.

(** The two intervals of [const.py], which is not part of the sources at
    hand: they are parameters. *)
Variable WEB_BOILER_LOGIN_RETRY_INTERVAL : Z.
Variable WEB_BOILER_REFRESH_INTERVAL : Z.

(** [WebBoilerSystem.tick] *)
Definition tick : M Frame unit :=
  now ← read_clock;
  connected ← try_except (client_call IsWebsocketConnected) (λ _, mret false);
  if negb connected
  then
    s ← self;
    if now - last_relogin_timestamp s >? WEB_BOILER_LOGIN_RETRY_INTERVAL
    then
      log Info "Centrometal WebBoilerSystem::tick trying to relogin %s";;
      relogin
    else mret tt
  else
    s ← self;
    if now - last_refresh_timestamp s >? WEB_BOILER_REFRESH_INTERVAL
    then
      set_last_refresh_timestamp now;;
      log Info "WebBoilerSystem::tick refresh data %s";;
      refresh_successful ← client_call Refresh;
      if negb refresh_successful then relogin else mret tt
    else mret tt.

(** The closure [_on_interval] of [start_tick] *)
Definition _on_interval : M Frame unit :=
  try_except tick (λ ex, log Warning ("WebBoilerSystem.tick raised: " +:+ ex)).

End Intervals.

(** ** The health monitor of [sensor.py] *)

(** Watchdog tuning, in seconds: [timedelta(minutes=2)], [10 * 60] and
    [15 * 60]. *)
Definition _WATCHDOG_INTERVAL : Z := 2 * 60.
Definition _STALE_SECONDS : Z := 10 * 60.
Definition _RELOAD_COOLDOWN_SECONDS : Z := 15 * 60.

(** The text of a reload reason, as [_tick] builds it; the third is the
    f-string [stale data ({now_ts - latest_ts}s > {_STALE_SECONDS}s)]. *)
Definition reason_text (r : reason) : string :=
  match r with
  | WebsocketDisconnected => "websocket disconnected"
  | NoTimestamps => "no timestamps available"
  | StaleData age =>
      "stale data (" +:+ pretty age +:+ "s > " +:+ pretty _STALE_SECONDS +:+ "s)"
  end.

(** [if latest is None or ts_int > latest: latest = ts_int] *)
Definition update_latest (latest : option Z) (ts_int : Z) : option Z :=
  match latest with
  | None => Some ts_int
  | Some l => if ts_int >? l then Some ts_int else Some l
  end.

(** The inner loop of [_latest_param_ts], over [params.values()].  It
    threads the local variable [latest]; an exception of [int(ts)] that the
    inner [except (ValueError, TypeError)] does not catch leaves the loop
    with [latest] as it is. *)
Fixpoint scan_params (ps : list (string * parameter)) (latest : option Z)
  : result unit * option Z :=
  match ps with
  | [] => (Ok tt, latest)
  | (_, p) :: ps' =>
      match p_timestamp p with
      | TsMissing | TsNone => scan_params ps' latest
      | TsValue (IntReturns ts_int) => scan_params ps' (update_latest latest ts_int)
      | TsValue (IntRaises ValueError _) => scan_params ps' latest
      | TsValue (IntRaises TypeError _) => scan_params ps' latest
      | TsValue (IntRaises _ msg) => (Raised msg, latest)
      end
  end.

(** The outer loop, over [web_boiler_client.data.values()];
    [device.get("parameters", {})] is empty when the key is missing. *)
Fixpoint scan_devices (ds : device_collection) (latest : option Z)
  : result unit * option Z :=
  match ds with
  | [] => (Ok tt, latest)
  | (_, d) :: ds' =>
      match scan_params (default [] (parameters d)) latest with
      | (Ok _, latest') => scan_devices ds' latest'
      | (Raised ex, latest') => (Raised ex, latest')
      end
  end.

(** [_latest_param_ts]: the scan inside [try ... except Exception], then
    [return latest]. *)
Definition _latest_param_ts {S} (data : device_collection) : M S (option Z) :=
  match scan_devices data None with
  | (Ok _, latest) => mret latest
  | (Raised ex, latest) =>
      log Debug ("Watchdog: failed to scan timestamps: " +:+ ex);;
      mret latest
  end.

(** *** The per-account store and the host's registry *)

(** A config entry: its id and [data[CONF_EMAIL]]. *)
Record ConfigEntry : Type := mkEntry { entry_id : string; conf_email : string }.

(** [hass.data[DOMAIN][username]], a dict with a fixed set of keys; a key
    that is absent is [None] here. *)
Record Store : Type := mkStore {
  WEB_BOILER_SYSTEM : option nat;
  WEB_BOILER_CLIENT : option nat;
  _watchdog_unsub : option nat;
  _last_reload_ts : option Z;
  _watchdog_started_ts : option Z
}.

Definition empty_dict : Store := mkStore None None None None None.

(** Truth value of a dict: false when it has no key. *)
Definition dict_truthy (st : Store) : bool :=
  match st with
  | mkStore None None None None None => false
  | _ => true
  end.

(** The objects of one host process.  Session objects and dicts live on a
    heap and are referred to by identity, so that a closure that captured a
    dict keeps seeing that very dict after the registry has dropped it. *)
Record Hass : Type := mkHass {
  systems : gmap nat WebBoilerSystem;   (* the [WebBoilerSystem] objects *)
  stores : gmap nat Store;              (* the per-account dicts *)
  hass_data : gmap string nat           (* [hass.data[DOMAIN]]: account -> dict *)
}.

Definition World : Type := Hass * Env.

(** [hass.data[DOMAIN].get(username)]: the dict the registry holds for an
    account. *)
Definition account_store (h : Hass) (username : string) : option Store :=
  match hass_data h !! username with
  | Some loc => stores h !! loc
  | None => None
  end.

Definition get_hass : M World Hass := λ '(h, e), (Ok h, (h, e), []).
Definition put_hass (h : Hass) : M World unit := λ '(_, e), (Ok tt, (h, e), []).

(** A fresh object identity. *)
Definition fresh : M World nat :=
  λ '(h, e), (Ok (next_id e), (h, set_next_id (S (next_id e)) e), []).

(** Runs a method on the session object [i]. *)
Definition on_system {A} (i : nat) (m : M Frame A) : M World A :=
  λ '(h, e),
  match systems h !! i with
  | Some s =>
      match m (s, e) with
      | (r, (s', e'), evs) =>
          (r, (mkHass (<[i := s']> (systems h)) (stores h) (hass_data h), e'), evs)
      end
  | None => (Raised "no such object", (h, e), [])
  end.

Definition get_store (loc : nat) : M World Store :=
  h ← get_hass;
  match stores h !! loc with
  | Some st => mret st
  | None => raise "no such object"
  end.

Definition modify_store (loc : nat) (f : Store → Store) : M World unit :=
  st ← get_store loc;
  h ← get_hass;
  put_hass (mkHass (systems h) (<[loc := f st]> (stores h)) (hass_data h)).

Definition put_system (st : Store) (v : option nat) : Store :=
  mkStore v (WEB_BOILER_CLIENT st) (_watchdog_unsub st) (_last_reload_ts st)
          (_watchdog_started_ts st).
Definition put_client (st : Store) (v : option nat) : Store :=
  mkStore (WEB_BOILER_SYSTEM st) v (_watchdog_unsub st) (_last_reload_ts st)
          (_watchdog_started_ts st).
Definition put_watchdog_unsub (st : Store) (v : option nat) : Store :=
  mkStore (WEB_BOILER_SYSTEM st) (WEB_BOILER_CLIENT st) v (_last_reload_ts st)
          (_watchdog_started_ts st).
Definition put_last_reload_ts (st : Store) (v : option Z) : Store :=
  mkStore (WEB_BOILER_SYSTEM st) (WEB_BOILER_CLIENT st) (_watchdog_unsub st) v
          (_watchdog_started_ts st).
Definition put_watchdog_started_ts (st : Store) (v : option Z) : Store :=
  mkStore (WEB_BOILER_SYSTEM st) (WEB_BOILER_CLIENT st) (_watchdog_unsub st)
          (_last_reload_ts st) v.

(** [store.pop("_watchdog_unsub", None)] *)
Definition pop_watchdog_unsub (loc : nat) : M World (option nat) :=
  st ← get_store loc;
  modify_store loc (λ st, put_watchdog_unsub st None);;
  mret (_watchdog_unsub st).

(** [if unsub: try: unsub() except Exception: pass] *)
Definition cancel_if_present (unsub : option nat) : M World unit :=
  match unsub with
  | Some u => try_except (call_unsub u) (λ _, mret tt)
  | None => mret tt
  end.

(** [hass.data.setdefault(DOMAIN, {}).setdefault(username, {})] *)
Definition setdefault_store (username : string) : M World nat :=
  h ← get_hass;
  match hass_data h !! username with
  | Some loc => mret loc
  | None =>
      loc ← fresh;
      h ← get_hass;
      put_hass (mkHass (systems h) (<[loc := empty_dict]> (stores h))
                       (<[username := loc]> (hass_data h)));;
      mret loc
  end.

(** Lines 84-106 of [_tick]: the reload reason.  [st] is the captured
    store, [client] its [WEB_BOILER_CLIENT]. *)
Definition reload_reason (st : Store) (client : nat) (now_ts : Z)
  : M World (option reason) :=
  connected ← try_except (do_call IsWebsocketConnected) (λ _, mret false);
  let reload_reason := if negb connected then Some WebsocketDisconnected else None in
  match reload_reason with
  | Some r => mret (Some r)
  | None =>
      '(_, e) ← get_state;
      latest_ts ← _latest_param_ts (client_data e client);
      match latest_ts with
      | None =>
          if now_ts - default now_ts (_watchdog_started_ts st)
               >? _WATCHDOG_INTERVAL * 2
          then mret (Some NoTimestamps)
          else mret None
      | Some latest_ts =>
          if now_ts - latest_ts >? _STALE_SECONDS
          then mret (Some (StaleData (now_ts - latest_ts)))
          else mret None
      end
  end.

(** The closure [_tick] of [_start_or_replace_watchdog]; [store] is the dict
    it captured, [entry] the id of the config entry.  [int(time.time())] is
    the clock reading, already whole seconds. *)
Definition _tick (store : nat) (entry : string) : M World unit :=
  st ← get_store store;
  match WEB_BOILER_CLIENT st with
  | None => mret tt
  | Some client =>
      now_ts ← read_clock;
      reload_reason ← reload_reason st client now_ts;
      match reload_reason with
      | None => mret tt
      | Some reload_reason =>
          let last_reload := default 0 (_last_reload_ts st) in
          if now_ts - last_reload <? _RELOAD_COOLDOWN_SECONDS
          then
            emit (EvCooldown reload_reason
                    (_RELOAD_COOLDOWN_SECONDS - (now_ts - last_reload)))
          else
            modify_store store (λ st, put_last_reload_ts st (Some now_ts));;
            emit (EvReloading reload_reason);;
            unsub ← pop_watchdog_unsub store;
            cancel_if_present unsub;;
            emit (EvCreateReloadTask entry)
      end
  end.

(** [_start_or_replace_watchdog] *)
Definition _start_or_replace_watchdog (config_entry : ConfigEntry) (username : string)
  : M World unit :=
  store ← setdefault_store username;
  old_unsub ← pop_watchdog_unsub store;
  cancel_if_present old_unsub;;
  modify_store store
    (λ st, put_last_reload_ts st (Some (default 0 (_last_reload_ts st))));;
  unsub ← async_track_time_interval (CbWatchdog store username (entry_id config_entry));
  modify_store store (λ st, put_watchdog_unsub st (Some unsub));;
  t ← read_clock;
  modify_store store (λ st, put_watchdog_started_ts st (Some t)).

(** [async_setup_entry] of [sensor.py], up to the start of the watchdog; the
    entities it goes on to create play no part here. *)
Definition sensor_async_setup_entry (config_entry : ConfigEntry) : M World unit :=
  let username := conf_email config_entry in
  h ← get_hass;
  match account_store h username with
  | None => raise "KeyError"
  | Some st =>
      match WEB_BOILER_CLIENT st with
      | None => raise "KeyError"
      | Some web_boiler_client => _start_or_replace_watchdog config_entry username
      end
  end.

(** ** Entry setup and unload of [__init__.py] *)

(** [WebBoilerSystem.__init__]: a new session object, both timestamps at
    the current time, no timer. *)
Definition WebBoilerSystem_init (username : string) : M World nat :=
  id ← fresh;
  now_ts ← read_clock;
  h ← get_hass;
  put_hass (mkHass (<[id := mkSystem id username now_ts now_ts None]> (systems h))
                   (stores h) (hass_data h));;
  mret id.

(** Lines 117-132 of [async_setup_entry], which run on the new session:
    [start()], the error log when it failed, the shutdown hook, and
    [start_tick()]. *)
Definition start_and_tick : M Frame bool :=
  ok ← start;
  (if negb ok
   then log Error "Got Access Denied Error when setting up Centrometal Boiler System: %s"
   else mret tt);;
  s ← self;
  emit (EvListenStop (sys_id s));;
  start_tick;;
  mret ok.

(** The host's [async_forward_entry_setups]: it calls the [async_setup_entry]
    of each platform; of the three, only the sensor platform's touches the
    state modelled here. *)
Definition async_forward_entry_setups (entry : ConfigEntry) : M World unit :=
  emit (EvForwardSetups (entry_id entry));;
  sensor_async_setup_entry entry.

(** [async_setup_entry] of [__init__.py] *)
Definition async_setup_entry (entry : ConfigEntry) : M World bool :=
  log Debug "Setting up Centrometal Boiler System component";;
  web_boiler_system ← WebBoilerSystem_init (conf_email entry);
  let unique_id := conf_email entry in
  loc ← fresh;
  h ← get_hass;
  put_hass (mkHass (systems h) (<[loc := empty_dict]> (stores h))
                   (<[unique_id := loc]> (hass_data h)));;
  modify_store loc (λ st, put_system st (Some web_boiler_system));;
  modify_store loc (λ st, put_client st (Some web_boiler_system));;
  on_system web_boiler_system start_and_tick;;
  async_forward_entry_setups entry;;
  log Debug "Centrometal Boiler System component setup finished %s";;
  mret true.

(** [async_unload_entry] of [__init__.py] *)
Definition async_unload_entry (entry : ConfigEntry) : M World bool :=
  let unique_id := conf_email entry in
  h ← get_hass;
  let store := account_store h unique_id in
  let system :=
    match store with
    | Some st => if dict_truthy st then WEB_BOILER_SYSTEM st else None
    | None => None
    end in
  match system with
  | Some sys =>
      try_except (on_system sys cancel_tick) (λ _, mret tt);;
      try_except (on_system sys stop;; mret tt) (λ _, mret tt)
  | None => mret tt
  end;;
  unload_ok ← do_call AsyncUnloadPlatforms;
  h ← get_hass;
  put_hass (mkHass (systems h) (stores h) (delete unique_id (hass_data h)));;
  mret unload_ok.

(** The host's reload of a config entry, the task [_tick] schedules and what
    the "reload" action of the platform runs: the entry is unloaded and, if
    that succeeded, set up again. *)
Definition async_reload (entry : ConfigEntry) : M World bool :=
  unload_ok ← async_unload_entry entry;
  if negb unload_ok then mret false else async_setup_entry entry.

(** The host fires the periodic timer [id]: it runs the callback the timer
    was installed with; a cancelled timer does not fire. *)
Definition fire (retry_interval refresh_interval : Z) (id : nat) : M World unit :=
  '(_, e) ← get_state;
  match timers e !! id with
  | Some (CbTick sys) => on_system sys (_on_interval retry_interval refresh_interval)
  | Some (CbWatchdog store _ entry) => _tick store entry
  | None => mret tt
  end.

(** The active watchdog timers of an account. *)
Definition is_watchdog_of (username : string) (cb : callback) : bool :=
  match cb with
  | CbWatchdog _ u _ => bool_decide (u = username)
  | CbTick _ => false
  end.
Definition active_watchdogs (username : string) (e : Env) : list nat :=
  (List.filter (λ kv, is_watchdog_of username kv.2) (map_to_list (timers e))).*1.

(** The active tick timers of a session. *)
Definition is_tick_of (system : nat) (cb : callback) : bool :=
  match cb with
  | CbTick s => bool_decide (s = system)
  | CbWatchdog _ _ _ => false
  end.
Definition active_ticks (system : nat) (e : Env) : list nat :=
  (List.filter (λ kv, is_tick_of system kv.2) (map_to_list (timers e))).*1.

(** An environment scripted by a list of answers and a list of clock
    readings; once the script is used up the client answers [False] and the
    clock stands still. *)
Definition scripted (answers : list outcome) (readings : list Z) : Env :=
  mkEnv (λ n, nth n answers (Returns false)) 0
        (λ n, nth n readings (List.last readings 0)) 0
        (λ _, false) ∅ 0 (λ _, []).

(** ** What the properties are stated with *)

(** The calls recorded in a run, in order. *)
Definition calls_of (evs : list event) : list call :=
  omap (λ ev, match ev with EvCall c => Some c | _ => None end) evs.

(** How often [relogin()] was entered in a run. *)
Definition is_relogin_invocation (ev : event) : bool :=
  match ev with
  | EvInvokeRelogin => true
  | _ => false
  end.
Definition relogin_invocations (evs : list event) : nat :=
  length (List.filter is_relogin_invocation evs).

(** The methods of a session, and a session driven through any sequence of
    them. *)
Inductive method : Type :=
| MStart
| MStartTick
| MCancelTick
| MStop
| MTick
| MRelogin
| MOnInterval.

Definition run_method (retry_interval refresh_interval : Z) (m : method)
  : M Frame unit :=
  match m with
  | MStart => start;; mret tt
  | MStartTick => start_tick
  | MCancelTick => cancel_tick
  | MStop => stop;; mret tt
  | MTick => tick retry_interval refresh_interval
  | MRelogin => relogin
  | MOnInterval => _on_interval retry_interval refresh_interval
  end.

Fixpoint run_methods (retry_interval refresh_interval : Z) (ms : list method)
  (f : Frame) : Frame :=
  match ms with
  | [] => f
  | m :: ms' =>
      run_methods retry_interval refresh_interval ms'
        (post (run_method retry_interval refresh_interval m f))
  end.

(** The frame a disconnected tick hands to [relogin()]: one clock reading
    and the connectivity call later. *)
Definition after_connectivity_read (s : WebBoilerSystem) (e : Env) : Frame :=
  (s, set_ncalls (S (ncalls e)) (set_nreads (S (nreads e)) e)).

(** Every active tick timer of the session is the one its handle names, or
    one whose cancellation raised. *)
Definition tick_inv (f : Frame) : Prop :=
  ∀ i, timers f.2 !! i = Some (CbTick (sys_id f.1)) →
       _tick_unsub f.1 = Some i ∨ unsub_raises f.2 i = true.

(** The tick timer is as it was: same handle, same active timers. *)
Definition same_timer (f f' : Frame) : Prop :=
  _tick_unsub f'.1 = _tick_unsub f.1
  ∧ sys_id f'.1 = sys_id f.1
  ∧ timers f'.2 = timers f.2
  ∧ unsub_raises f'.2 = unsub_raises f.2.

(** The host's cancel handles work: none raises. *)
Definition reliable_unsub (e : Env) : Prop := ∀ i, unsub_raises e i = false.

(** The value of [latest] when the scan of [_latest_param_ts] ends. *)
Definition latest_of (data : device_collection) : option Z :=
  (scan_devices data None).2.

(** All parameters of all devices, in scan order. *)
Definition all_parameters (data : device_collection) : list parameter :=
  concat (map (λ kd, (default [] (parameters kd.2)).*2) data).

(** [int(ts)] raises something the inner [except] lets through. *)
Definition uncaught (p : parameter) : bool :=
  match p_timestamp p with
  | TsValue (IntRaises ValueError _) | TsValue (IntRaises TypeError _) => false
  | TsValue (IntRaises _ _) => true
  | _ => false
  end.

(** The parameters the scan gets to: those before the first one whose
    conversion raises uncaught. *)
Fixpoint scanned (ps : list parameter) : list parameter :=
  match ps with
  | [] => []
  | p :: ps' => if uncaught p then [] else p :: scanned ps'
  end.

(** The timestamps that convert to an integer. *)
Definition converted (p : parameter) : option Z :=
  match p_timestamp p with
  | TsValue (IntReturns z) => Some z
  | _ => None
  end.
Definition convertible (ps : list parameter) : list Z := omap converted ps.

(** [m] is the maximum of [zs], or there is none. *)
Definition is_max_of (zs : list Z) (latest : option Z) : Prop :=
  match latest with
  | None => zs = []
  | Some m => In m zs ∧ ∀ z, In z zs → z ≤ m
  end.

(** *** Concrete inputs *)

Definition hass0 : Hass := mkHass ∅ ∅ ∅.
Definition entry0 : ConfigEntry := mkEntry "entry-1" "user@example.org".
Definition sys0 : WebBoilerSystem := mkSystem 0 "user@example.org" 1000 1000 None.

(** The same environment with [data] as the device collection of every
    client. *)
Definition with_data (data : device_collection) (e : Env) : Env :=
  mkEnv (responses e) (ncalls e) (clock e) (nreads e) (unsub_raises e) (timers e)
        (next_id e) (λ _, data).

Definition one_boiler : device_collection :=
  [("boiler",
    {| parameters :=
         Some [("B_STATE", {| p_timestamp := TsValue (IntReturns 1700000000) |})]
    |})].

(** Login is refused. *)
Definition login_refused : Env := scripted [Returns false] [1700000000].

(** The websocket is found disconnected at 1061, a minute and a second
    after the last relogin of [sys0]; closing and re-authenticating then
    succeed, and so does the refresh. *)
Definition disconnected_then_recovers : Env :=
  scripted [Returns false; Returns true; Returns true; Returns true;
            Returns true; Returns true]
           [1061; 1062; 1063].

(** The websocket is connected at 1601, ten minutes and a second after the
    last refresh of [sys0]; the refresh then reports failure, and so does
    the re-authentication. *)
Definition connected_refresh_fails : Env :=
  scripted [Returns true; Returns false] [1601; 1602].

(** A connected client that holds [data]; a disconnected one. *)
Definition connected_with (data : device_collection) : Env :=
  with_data data (scripted [Returns true] [1700000000]).
Definition disconnected : Env := scripted [Returns false] [1700000000].

(** A store whose watchdog started at 1700000000, and one whose watchdog
    started 500 seconds later. *)
Definition started_store : Store :=
  mkStore (Some 0%nat) (Some 0%nat) (Some 3%nat) (Some 0) (Some 1700000000).
Definition restarted_store : Store :=
  mkStore (Some 0%nat) (Some 0%nat) (Some 3%nat) (Some 0) (Some 1700000500).

(** What [int()] does with a float infinity, [float("-inf")] here. *)
Definition minus_infinity : timestamp :=
  TsValue (IntRaises OverflowError "cannot convert float infinity to integer").

(** A boiler three of whose parameters carry a timestamp: 1699999000, minus
    infinity and 1700000000, in this order; and one with the last two
    only.  The largest of the timestamps is 1700000000 in both. *)
Definition cut_short : device_collection :=
  [("boiler",
    {| parameters :=
         Some [("B_Tk1", {| p_timestamp := TsValue (IntReturns 1699999000) |});
               ("B_Oxy1", {| p_timestamp := minus_infinity |});
               ("B_STATE", {| p_timestamp := TsValue (IntReturns 1700000000) |})]
    |})].
Definition hidden : device_collection :=
  [("boiler",
    {| parameters :=
         Some [("B_Oxy1", {| p_timestamp := minus_infinity |});
               ("B_STATE", {| p_timestamp := TsValue (IntReturns 1700000000) |})]
    |})].

(** Two boilers whose timestamps all convert or are passed over; the
    largest, 1700000000, is neither the first nor the last. *)
Definition mixed_boilers : device_collection :=
  [("boiler-1",
    {| parameters :=
         Some [("B_Tk1", {| p_timestamp := TsValue (IntReturns 1699999000) |});
               ("B_Oxy1",
                {| p_timestamp :=
                     TsValue (IntRaises ValueError
                                "invalid literal for int() with base 10: 'n/a'") |});
               ("B_STATE", {| p_timestamp := TsValue (IntReturns 1700000000) |})]
    |});
   ("boiler-2",
    {| parameters :=
         Some [("B_VER", {| p_timestamp := TsMissing |});
               ("B_Tk1", {| p_timestamp := TsNone |});
               ("B_STATE", {| p_timestamp := TsValue (IntReturns 1699999995) |})]
    |})].

(** The vendor's server is unreachable: login is refused at both setups and
    the websocket is never connected; the host unloads the platforms
    without trouble.  The answers are, in order, to [login],
    [is_websocket_connected], [close_websocket], [async_unload_platforms],
    [login] and [is_websocket_connected]; the clock is read at each setup
    (twice) and at each watchdog period. *)
Definition server_down : World :=
  (hass0,
   scripted [Returns false; Returns false; Returns true; Returns true;
             Returns false; Returns false]
            [1700000000; 1700000001; 1700000121; 1700000122; 1700000123;
             1700000243]).

(** Everything works: login, configuration fetch, websocket and refresh
    succeed at both setups, and the host unloads the platforms without
    trouble.  The closed client of the first setup then reports its
    websocket as disconnected. *)
Definition all_well : World :=
  (hass0,
   with_data one_boiler
     (scripted [Returns true; Returns true; Returns true; Returns true;
                Returns true; Returns true;
                Returns true; Returns true; Returns true; Returns true;
                Returns false]
               [1700000000; 1700000001; 1700000002; 1700000060; 1700000061;
                1700000062; 1700000122])).

(** ** What the further properties are stated with *)

(** The session with [last_refresh_timestamp] set to [t]. *)
Definition with_last_refresh (t : Z) (s : WebBoilerSystem) : WebBoilerSystem :=
  mkSystem (sys_id s) (username s) (last_relogin_timestamp s) t (_tick_unsub s).


(** How many reloads a run scheduled. *)
Definition is_reload_task (ev : event) : bool :=
  match ev with
  | EvCreateReloadTask _ => true
  | _ => false
  end.
Definition reload_tasks (evs : list event) : nat :=
  length (List.filter is_reload_task evs).

(** What happens to the watchdog of an account whose store [loc] stays in
    the registry: a watchdog is started for it, or a watchdog that captured
    the store runs its [_tick]. *)
Inductive watchdog_op : Type :=
| WStart (entry : ConfigEntry)
| WTick (entry : string).

Definition run_watchdog_op (user : string) (loc : nat) (op : watchdog_op)
  : M World unit :=
  match op with
  | WStart entry => _start_or_replace_watchdog entry user
  | WTick entry => _tick loc entry
  end.

Fixpoint run_watchdog_ops (user : string) (loc : nat) (ops : list watchdog_op)
  (w : World) : World :=
  match ops with
  | [] => w
  | op :: ops' => run_watchdog_ops user loc ops' (post (run_watchdog_op user loc op w))
  end.

(** The account is registered with store [loc], and every active watchdog
    timer of the account is the one the store records, or one whose
    cancellation raised. *)
Definition watchdog_inv (user : string) (loc : nat) (w : World) : Prop :=
  hass_data w.1 !! user = Some loc
  ∧ ∃ st, stores w.1 !! loc = Some st
          ∧ ∀ i l en, timers w.2 !! i = Some (CbWatchdog l user en) →
                      _watchdog_unsub st = Some i ∨ unsub_raises w.2 i = true.

(** ** The entity factories of the sensor platform *)

(** The entity classes of [sensors/]. *)
Inductive sensor_class : Type :=
| GenericSensor          (* WebBoilerGenericSensor *)
| BinaryOnOffSensor      (* WebBoilerBinaryOnOffSensor *)
| ConfigurationSensor    (* WebBoilerConfigurationSensor *)
| DeviceTypeSensor       (* WebBoilerDeviceTypeSensor *)
| FireGridSensor.        (* WebBoilerFireGridSensor *)

Global Instance sensor_class_eq_dec : EqDecision sensor_class.
Proof. solve_decision. Defined.

(** An entity, by what [WebBoilerGenericSensor.__init__] stores in it.
    [unique_id] is what [getattr(entity, "unique_id", None)] gives. *)
Record entity : Type := mkEntity {
  entity_class : sensor_class;
  unique_id : option string;
  _param_name : string;
  _description : string
}.

(** A device of the client's data, as the factories read and write it:
    [device["serial"]], [device["type"]] and, for every name in
    [device["parameters"]], whether that parameter's ["used"] is set (a
    parameter without the key counts as not used, as with
    [parameter.get("used")]).  The device objects of the vendor library
    always carry their parameters dict. *)
Record boiler : Type := mkBoiler {
  serial : string;
  type : string;
  used : gmap string bool
}.

(** [param_name in device.get("parameters", {})] *)
Definition _device_has_parameter (device : boiler) (param_name : string) : bool :=
  bool_decide (is_Some (used device !! param_name)).

(** [device.get_parameter(param_name).get("used")]; the factories ask only
    for parameters the device has, which [get_parameter] returns as they
    are. *)
Definition get_used (device : boiler) (param_name : string) : bool :=
  default false (used device !! param_name).

(** [device.get_parameter(param_name)["used"] = True] *)
Definition set_used (param_name : string) (device : boiler) : boiler :=
  mkBoiler (serial device) (type device) (<[param_name := true]> (used device)).

(** The entity [__init__] builds from [sensor_data] and the parameter; of
    [sensor_data] (unit, icon, device class, description) the description is
    kept.  The unique id is [f"{serial}-{param_name}"].  The constructor's
    look-ups in the host's registry and its formatting of the name are
    taken to succeed, as they do for a device of an account that is set
    up. *)
Definition new_entity (cls : sensor_class) (device : boiler)
    (description param_name : string) : entity :=
  mkEntity cls (Some (serial device +:+ "-" +:+ param_name)) param_name description.

(** The loop the table-driven factories share: for every item of the table
    in order, skip it when it is in [skip_params], when the device has no
    such parameter, or when the parameter is used already; otherwise build
    the entity, whose constructor marks the parameter used. *)
Fixpoint create_from (cls : sensor_class) (skip_params : list string)
    (items : list (string * string)) (device : boiler) : list entity * boiler :=
  match items with
  | [] => ([], device)
  | (param_id, description) :: items' =>
      if bool_decide (param_id ∈ skip_params)
      then create_from cls skip_params items' device
      else if negb (_device_has_parameter device param_id)
      then create_from cls skip_params items' device
      else if get_used device param_id
      then create_from cls skip_params items' device
      else
        let '(entities, device') :=
          create_from cls skip_params items' (set_used param_id device) in
        (new_entity cls device description param_id :: entities, device')
  end.

(** [binary_map] of [create_binary_state_entities], in the order of the dict. *)
Definition binary_map : list (string * string) :=
  [("B_CMD", "Command Active");
   ("B_Ppwm", "PWM Pump");
   ("B_P1", "Hot Water Flow");
   ("B_gri", "Electric Heater");
   ("B_fan01", "Fan Active");
   ("K1B_onOff", "DHW Pump Demand");
   ("K1B_P", "DHW Pump State")].

Definition create_binary_state_entities : boiler → list entity * boiler :=
  create_from BinaryOnOffSensor [] binary_map.

Definition GENERIC_SENSORS_COMMON : list (string * string) :=
  [("B_STATE", "Boiler State");
   ("B_CMD", "Command Active");
   ("B_BRAND", "Brand");
   ("B_INST", "Installation");
   ("B_PRODNAME", "Product Name");
   ("B_VER", "Firmware Version");
   ("B_sng", "Nominal Power")].

Definition create_common_entities : boiler → list entity * boiler :=
  create_from GenericSensor ["B_CMD"] GENERIC_SENSORS_COMMON.

(** [WebBoilerConfigurationSensor.create_entities] *)
Definition WebBoilerConfigurationSensor_create_entities (device : boiler)
  : list entity * boiler :=
  if _device_has_parameter device "B_KONF"
  then if negb (get_used device "B_KONF")
       then ([new_entity ConfigurationSensor device "Configuration" "B_KONF"],
             set_used "B_KONF" device)
       else ([], device)
  else ([], device).

(** [WebBoilerDeviceTypeSensor.create_entities]: the entity sits on a
    parameter object made for it, which is not one of the device's. *)
Definition WebBoilerDeviceTypeSensor_create_entities (device : boiler)
  : list entity * boiler :=
  ([new_entity DeviceTypeSensor device "Device Type" "Device_Type"], device).

(** [device_has_prefix]: some parameter name starts with [prefix]. *)
Definition device_has_prefix (device : boiler) (prefix : string) : bool :=
  existsb (String.prefix prefix) (map fst (map_to_list (used device))).

(** [items] of [create_heating_circuit_entities]. *)
Definition circuit_items (prefix name : string) : list (string * string) :=
  [(prefix +:+ "_CircType", name +:+ " Heating Type");
   (prefix +:+ "_dayNight", name +:+ " Day Night Mode");
   (prefix +:+ "_kor", name +:+ " Room Target Correction");
   (prefix +:+ "_korType", name +:+ " Correction Type");
   (prefix +:+ "_onOff", name +:+ " Pump Demand");
   (prefix +:+ "_P", name +:+ " Pump");
   (prefix +:+ "_Tpol", name +:+ " Flow Target Temperature");
   (prefix +:+ "_Tpol1", name +:+ " Flow Measured Temperature");
   (prefix +:+ "_Tsob", name +:+ " Room Target Temperature");
   (prefix +:+ "_Tsob1", name +:+ " Room Measured Temperature")].

Definition create_heating_circuit_entities (prefix name : string)
  : boiler → list entity * boiler :=
  create_from GenericSensor [] (circuit_items prefix name).

(** The prefixes and names the two loops of
    [create_heating_circuits_entities] go through: [C1B] to [C4B], then
    [K1B] to [K4B]. *)
Definition circuits : list (string * string) :=
  [("C1B", "Circuit 1"); ("C2B", "Circuit 2"); ("C3B", "Circuit 3");
   ("C4B", "Circuit 4");
   ("K1B", "Circuit 1K"); ("K2B", "Circuit 2K"); ("K3B", "Circuit 3K");
   ("K4B", "Circuit 4K")].

Fixpoint create_circuits (cs : list (string * string)) (device : boiler)
  : list entity * boiler :=
  match cs with
  | [] => ([], device)
  | (prefix, name) :: cs' =>
      if device_has_prefix device prefix
      then
        let '(entities, device') :=
          create_heating_circuit_entities prefix name device in
        let '(entities', device'') := create_circuits cs' device' in
        (entities ++ entities', device'')
      else create_circuits cs' device
  end.

Definition create_heating_circuits_entities : boiler → list entity * boiler :=
  create_circuits circuits.

(** [WebBoilerFireGridSensor.create_entities]: the entity sits on
    [B_resInd]; its constructor marks all three parameters used. *)
Definition WebBoilerFireGridSensor_create_entities (device : boiler)
  : list entity * boiler :=
  if negb (forallb (_device_has_parameter device) ["B_resInd"; "B_resDir"; "B_resMax"])
  then ([], device)
  else if get_used device "B_resInd" && get_used device "B_resDir"
          && get_used device "B_resMax"
  then ([], device)
  else ([new_entity FireGridSensor device "Fire Grid Position" "B_resInd"],
        set_used "B_resMax" (set_used "B_resDir" (set_used "B_resInd" device))).

(** [PELTEC_GENERIC_SENSORS]: temperatures, counters, miscellaneous. *)
Definition PELTEC_GENERIC_SENSORS : list (string * string) :=
  [("B_Tak1_1", "Buffer Tank Temparature Up");
   ("B_Tak2_1", "Buffer Tank Temparature Down");
   ("B_Tdpl1", "Flue Gas");
   ("B_Tpov1", "Mixer Temperature");
   ("B_Tk1", "Boiler Temperature");
   ("B_Ths1", "Hydraulic Crossover Temperature");
   ("B_Tkm1", "DHW Temperature");
   ("CNT_0", "Burner Work");
   ("CNT_1", "Number of Burner Start");
   ("CNT_2", "Feeder Screw Work");
   ("CNT_3", "Flame Duration");
   ("CNT_4", "Fan Working Time");
   ("CNT_5", "Electric Heater Working Time");
   ("CNT_6", "Vacuum Turbine Working Time");
   ("CNT_7", "Vacuum Turbine Cycles Number");
   ("CNT_8", "Time on D6");
   ("CNT_9", "Time on D5");
   ("CNT_10", "Time on D4");
   ("CNT_11", "Time on D3");
   ("CNT_12", "Time on D2");
   ("CNT_13", "Time on D1");
   ("CNT_14", "Time on D0");
   ("CNT_15", "Reserve Counter");
   ("B_Tva1", "Outdoor Temperature");
   ("B_cm2k", "CM2K Status");
   ("B_addConf", "Accessories");
   ("B_korNum", "Working Phase");
   ("B_razP", "Pelet Level");
   ("B_STATE", "Boiler State");
   ("B_fireS", "Firing State");
   ("K1B_CircType", "Circuit 1K Heating Type");
   ("K1B_korType", "Circuit 1K Correction Type");
   ("K1B_dayNight", "Circuit 1K Day Night Mode");
   ("B_KONF", "Configuration");
   ("B_VER", "Firmware Version");
   ("B_INST", "Installation");
   ("B_sng", "Nominal Power");
   ("B_PRODNAME", "Product Name");
   ("B_Oxy1", "Lambda Probe Reading");
   ("B_signal", "WiFi Signal");
   ("B_resInd", "Reserved Index");
   ("B_resDir", "Reserved Direction");
   ("B_resMax", "Reserved Max");
   ("PDEF_272_0", "Param Default 272/0");
   ("PMIN_272_0", "Param Min 272/0");
   ("PMAX_272_0", "Param Max 272/0");
   ("B_FILE", "Firmware File")].

(** [skip_params] of [create_conf_entities] for a PelTec II Lambda. *)
Definition conf_skip_params : list string :=
  ["B_CMD"; "K1B_onOff"; "K1B_P"; "B_KONF"; "B_resInd"; "B_resDir"; "B_resMax";
   "B_Time"; "B_razina"; "PING"].

Definition create_conf_entities (device : boiler) : list entity * boiler :=
  if String.eqb (type device) "peltec2"
  then create_from GenericSensor conf_skip_params PELTEC_GENERIC_SENSORS device
  else create_from GenericSensor [] [] device.

Definition create_unknown_entities (device : boiler) : list entity * boiler :=
  ([], device).

(** The factories [async_setup_entry] of [sensor.py] runs on a device,
    short of the working-table and the temperature-settings ones. *)
Inductive factory : Type :=
| BinaryState | Common | Configuration | DeviceType | HeatingCircuits
| FireGrid | Conf | Unknown.

Global Instance factory_eq_dec : EqDecision factory.
Proof. solve_decision. Defined.

Definition run_factory (f : factory) : boiler → list entity * boiler :=
  match f with
  | BinaryState => create_binary_state_entities
  | Common => create_common_entities
  | Configuration => WebBoilerConfigurationSensor_create_entities
  | DeviceType => WebBoilerDeviceTypeSensor_create_entities
  | HeatingCircuits => create_heating_circuits_entities
  | FireGrid => WebBoilerFireGridSensor_create_entities
  | Conf => create_conf_entities
  | Unknown => create_unknown_entities
  end.

(** [all_entities.extend(f(hass, device))] for each factory of [fs] in
    turn, on one device. *)
Fixpoint run_factories (fs : list factory) (device : boiler)
  : list entity * boiler :=
  match fs with
  | [] => ([], device)
  | f :: fs' =>
      let '(entities, device') := run_factory f device in
      let '(entities', device'') := run_factories fs' device' in
      (entities ++ entities', device'')
  end.

(** ** The de-duplication pass of [async_setup_entry] in [sensor.py] *)

(** One turn of the loop over [all_entities]; the state is
    [deduped_entities] and [seen_ids]. *)
Definition dedupe_step (state : list entity * gset string) (en : entity)
  : list entity * gset string :=
  let '(deduped_entities, seen_ids) := state in
  match unique_id en with
  | None => (deduped_entities ++ [en], seen_ids)
  | Some uid =>
      if decide (uid ∈ seen_ids)
      then (deduped_entities, seen_ids)
      else (deduped_entities ++ [en], {[uid]} ∪ seen_ids)
  end.

(** Lines 210-230: the entities handed to [async_add_entities]. *)
Definition dedupe (all_entities : list entity) : list entity :=
  (fold_left dedupe_step all_entities ([], ∅)).1.

(** The same pass, as a recursion on what is left to look at. *)
Fixpoint dedupe_from (seen_ids : gset string) (l : list entity) : list entity :=
  match l with
  | [] => []
  | en :: l' =>
      match unique_id en with
      | None => en :: dedupe_from seen_ids l'
      | Some uid =>
          if decide (uid ∈ seen_ids)
          then dedupe_from seen_ids l'
          else en :: dedupe_from ({[uid]} ∪ seen_ids) l'
      end
  end.

(** The entity has the unique id [uid]. *)
Definition has_uid (uid : string) (en : entity) : bool :=
  bool_decide (unique_id en = Some uid).

(** *** What a run of the factories keeps *)

(** [device'] is [device] with some more of its parameters marked used:
    same serial, same type, the same parameter names, no mark removed. *)
Definition extends (device device' : boiler) : Prop :=
  serial device' = serial device
  ∧ type device' = type device
  ∧ (∀ k, is_Some (used device' !! k) ↔ is_Some (used device !! k))
  ∧ (∀ k, used device !! k = Some true → used device' !! k = Some true).

(** The entities [es] were built by class [cls] on parameters among [keys]
    that the device had and that were not used in [device]; they are used
    in [device']. *)
Definition claiming (cls : sensor_class) (keys : list string)
    (device : boiler) (es : list entity) (device' : boiler) : Prop :=
  extends device device'
  ∧ NoDup (map _param_name es)
  ∧ ∀ e, e ∈ es →
      entity_class e = cls
      ∧ unique_id e = Some (serial device +:+ "-" +:+ _param_name e)
      ∧ _param_name e ∈ keys
      ∧ is_Some (used device !! _param_name e)
      ∧ get_used device (_param_name e) = false
      ∧ used device' !! _param_name e = Some true.

(** Nothing is left to claim for [k]: the device lacks it or it is used. *)
Definition settled (device : boiler) (k : string) : Prop :=
  _device_has_parameter device k = false ∨ get_used device k = true.

(** The parameter names a factory can build an entity on, and the class of
    the entities it builds. *)
Definition keys_of (f : factory) : list string :=
  match f with
  | BinaryState => map fst binary_map
  | Common => List.filter (λ k, negb (bool_decide (k ∈ ["B_CMD"]))) (map fst GENERIC_SENSORS_COMMON)
  | Configuration => ["B_KONF"]
  | DeviceType => ["Device_Type"]
  | HeatingCircuits => flat_map (λ c, map fst (circuit_items c.1 c.2)) circuits
  | FireGrid => ["B_resInd"]
  | Conf => List.filter (λ k, negb (bool_decide (k ∈ conf_skip_params))) (map fst PELTEC_GENERIC_SENSORS)
  | Unknown => []
  end.

Definition class_of (f : factory) : sensor_class :=
  match f with
  | BinaryState => BinaryOnOffSensor
  | Configuration => ConfigurationSensor
  | DeviceType => DeviceTypeSensor
  | FireGrid => FireGridSensor
  | _ => GenericSensor
  end.

(** The entities created so far on a device have pairwise different
    parameter names, carry the unique id made of serial and name, and sit
    on parameters that are marked used, the device-type entity apart; once
    there is a fire-grid entity, its two companion parameters are used. *)
Definition created_inv (es : list entity) (device : boiler) : Prop :=
  NoDup (map _param_name es)
  ∧ (∀ e, e ∈ es → unique_id e = Some (serial device +:+ "-" +:+ _param_name e))
  ∧ (∀ e, e ∈ es →
       _param_name e = "Device_Type" ∨ used device !! _param_name e = Some true)
  ∧ ("B_resInd" ∈ map _param_name es →
       used device !! "B_resDir" = Some true ∧ used device !! "B_resMax" = Some true).

(** *** More concrete inputs *)


(** The websocket is connected at 1601, the refresh succeeds, and at 1700
    the websocket is still connected. *)
Definition connected_refresh_succeeds : Env :=
  scripted [Returns true; Returns true; Returns true] [1601; 1700].

(** The world once the entry is set up with the vendor's server down. *)
Definition set_up : World := post (async_setup_entry entry0 server_down).

(** Two devices with one parameter each, and the same two the other way
    round. *)
Definition two_boilers : device_collection :=
  [("boiler-1",
    {| parameters :=
         Some [("B_STATE", {| p_timestamp := TsValue (IntReturns 1700000000) |})] |});
   ("boiler-2",
    {| parameters :=
         Some [("B_Tk1", {| p_timestamp := TsValue (IntReturns 1700000100) |})] |})].
Definition two_boilers_swapped : device_collection := rev two_boilers.

(** A PelTec II Lambda with a few of its parameters, none of them used. *)
Definition peltec : boiler :=
  mkBoiler "SN1" "peltec2"
    (list_to_map
       [("B_CMD", false); ("B_STATE", false); ("B_KONF", false);
        ("B_Tk1", false); ("K1B_onOff", false); ("K1B_P", false);
        ("K1B_CircType", false); ("B_resInd", false); ("B_resDir", false);
        ("B_resMax", false)]).

(** The factories in the order [async_setup_entry] runs them on a
    PelTec II Lambda. *)
Definition setup_order : list factory :=
  [BinaryState; Common; Configuration; DeviceType; HeatingCircuits; FireGrid;
   Conf; Unknown].

(** * Properties *)

(** ** Running the model symbolically *)

Ltac unfold_monad :=
  unfold mbind, M_bind, mret, M_ret, try_except, raise, log, emit,
    get_state, put_state, out, post, emitted in *.

Ltac unfold_session :=
  unfold start_and_tick, _on_interval, tick, relogin, start, start_tick,
    cancel_tick, stop, client_call, do_call, read_clock, data_len, self,
    async_track_time_interval, call_unsub, set_last_relogin_timestamp,
    set_last_refresh_timestamp, set_tick_unsub in *;
  unfold_monad.

(** Case analysis on the oracle's next answer. *)
Ltac next_answer :=
  match goal with
  | H : responses ?e ?n = _ |- context [responses ?e ?n] => rewrite H
  | |- context [match responses ?e ?n with _ => _ end] =>
      let E := fresh "E" in destruct (responses e n) as [[]|] eqn:E
  end; simpl.

(** ** The session controller *)

(** C4. Every call of [relogin()] first sets [last_relogin_timestamp] to the
    time it was invoked at: the assignment comes before the first call into
    the client (closing the websocket), and the field holds that time when
    [relogin()] is over, whatever the client answered to any of the calls,
    an exception included. *)
Theorem relogin_records_attempt_first (s : WebBoilerSystem) (e : Env) :
  let t := clock e (nreads e) in
  let r := relogin (s, e) in
  (∃ rest,
     emitted r
     = EvInvokeRelogin :: EvSetRelogin t :: EvCall CloseWebsocket :: rest)
  ∧ last_relogin_timestamp (post r).1 = t.
Proof.
  unfold_session. simpl.
  repeat next_answer; (split; [eexists; reflexivity | reflexivity]).
Qed.

(** [relogin()] is entered once per call, and that call enters nothing
    else. *)
Lemma relogin_invoked_once (s : WebBoilerSystem) (e : Env) :
  relogin_invocations (emitted (relogin (s, e))) = 1%nat.
Proof.
  unfold_session. simpl.
  repeat next_answer; reflexivity.
Qed.

(** [relogin()] calls [refresh()] only after the client's own [relogin()]
    has answered true; that call is the third one [relogin()] makes. *)
Lemma relogin_refresh_needs_success (s : WebBoilerSystem) (e : Env) :
  In Refresh (calls_of (emitted (relogin (s, e)))) →
  responses e (2 + ncalls e) = Returns true.
Proof.
  unfold_session. simpl.
  repeat next_answer; simpl; intros H; try reflexivity;
    repeat (destruct H as [H | H]; try discriminate H); try contradiction.
Qed.

(** *** [start()] and the setup routine *)

(** [start()] never raises and never touches the tick timer: the handle of
    the session and the host's timers are as before. *)
Lemma start_keeps_timer (s : WebBoilerSystem) (e : Env) :
  let r := start (s, e) in
  (∃ b, out r = Ok b)
  ∧ _tick_unsub (post r).1 = _tick_unsub s
  ∧ sys_id (post r).1 = sys_id s
  ∧ timers (post r).2 = timers e
  ∧ unsub_raises (post r).2 = unsub_raises e
  ∧ next_id (post r).2 = next_id e.
Proof.
  unfold_session. simpl.
  repeat next_answer;
    repeat match goal with
           | |- context [(?n =? 0)%nat] => destruct (n =? 0)%nat; simpl
           end;
    repeat next_answer; repeat split; eauto.
Qed.

(** *** The tick timer *)

(** [cancel_tick()] with no timer present does nothing. *)
Lemma cancel_tick_absent (s : WebBoilerSystem) (e : Env) :
  _tick_unsub s = None → cancel_tick (s, e) = (Ok tt, (s, e), []).
Proof. intros H. unfold_session. simpl. rewrite H. reflexivity. Qed.

(** [cancel_tick()] with a handle present calls it once, swallows what it
    raises, and forgets it. *)
Lemma cancel_tick_present (s : WebBoilerSystem) (e : Env) (u : nat) :
  _tick_unsub s = Some u →
  let r := cancel_tick (s, e) in
  out r = Ok tt
  ∧ emitted r = [EvUnsub u]
  ∧ _tick_unsub (post r).1 = None
  ∧ sys_id (post r).1 = sys_id s
  ∧ unsub_raises (post r).2 = unsub_raises e
  ∧ next_id (post r).2 = next_id e
  ∧ timers (post r).2 = (if unsub_raises e u then timers e else delete u (timers e)).
Proof.
  intros H. unfold_session. simpl. rewrite H.
  destruct (unsub_raises e u); simpl; repeat split; reflexivity.
Qed.

Lemma cancel_tick_inv (f : Frame) : tick_inv f → tick_inv (post (cancel_tick f)).
Proof.
  destruct f as [s e]. unfold tick_inv. simpl. intros Hinv.
  destruct (_tick_unsub s) as [u|] eqn:Hu.
  - destruct (cancel_tick_present s e u Hu) as (_ & _ & Hh & Hid & Hr & _ & Ht).
    intros i. rewrite Hh, Hid, Hr, Ht. intros Hi. right.
    destruct (unsub_raises e u) eqn:Hru.
    + destruct (Hinv i Hi) as [Heq | ?]; [|done]. congruence.
    + destruct (decide (i = u)) as [->|Hne].
      * rewrite lookup_delete_eq in Hi. discriminate.
      * rewrite lookup_delete_ne in Hi by done.
        destruct (Hinv i Hi) as [Heq | ?]; [congruence | done].
  - rewrite (cancel_tick_absent s e Hu). simpl. rewrite Hu. exact Hinv.
Qed.

(** [start_tick()] is [cancel_tick()] followed by the installation of a new
    timer, whose handle the session keeps. *)
Lemma start_tick_unfold (f : Frame) :
  let c := cancel_tick f in
  let id := next_id f.2 in
  let cb := CbTick (sys_id f.1) in
  let r := start_tick f in
  out r = Ok tt
  ∧ emitted r = emitted c ++ [EvTrack id cb]
  ∧ _tick_unsub (post r).1 = Some id
  ∧ sys_id (post r).1 = sys_id f.1
  ∧ unsub_raises (post r).2 = unsub_raises f.2
  ∧ timers (post r).2 = <[id := cb]> (timers (post c).2).
Proof.
  destruct f as [s e]. unfold_session. simpl.
  destruct (_tick_unsub s) as [u|]; simpl;
    [destruct (unsub_raises e u); simpl|]; repeat split; reflexivity.
Qed.

Lemma start_tick_inv (f : Frame) : tick_inv f → tick_inv (post (start_tick f)).
Proof.
  intros Hinv. apply cancel_tick_inv in Hinv.
  destruct (start_tick_unfold f) as (_ & _ & Hh & Hid & Hr & Ht).
  assert (Hnone : _tick_unsub (post (cancel_tick f)).1 = None
                  ∧ sys_id (post (cancel_tick f)).1 = sys_id f.1
                  ∧ unsub_raises (post (cancel_tick f)).2 = unsub_raises f.2).
  { destruct f as [s e]. destruct (_tick_unsub s) as [u|] eqn:Hu.
    - destruct (cancel_tick_present s e u Hu) as (_ & _ & ? & ? & ? & _); done.
    - rewrite (cancel_tick_absent s e Hu). done. }
  destruct Hnone as (Hn & Hcid & Hcr).
  unfold tick_inv in *. intros i. rewrite Hh, Hid, Hr, Ht. intros Hi.
  destruct (decide (i = next_id f.2)) as [->|Hne]; [by left|].
  rewrite lookup_insert_ne in Hi by done. right.
  rewrite <- Hcid in Hi. destruct (Hinv i Hi) as [Heq | Hraise].
  - congruence.
  - by rewrite <- Hcr.
Qed.

(** Only [start_tick()] and [cancel_tick()] touch the timer. *)
Lemma start_same_timer (f : Frame) : same_timer f (post (start f)).
Proof.
  destruct f as [s e].
  destruct (start_keeps_timer s e) as (_ & ? & ? & ? & ? & _).
  by repeat split.
Qed.

Lemma stop_same_timer (f : Frame) : same_timer f (post (stop f)).
Proof.
  destruct f as [s e]. unfold same_timer. unfold_session. simpl.
  repeat next_answer; repeat split; reflexivity.
Qed.

Lemma relogin_same_timer (f : Frame) : same_timer f (post (relogin f)).
Proof.
  destruct f as [s e]. unfold same_timer. unfold_session. simpl.
  repeat next_answer; repeat split; reflexivity.
Qed.

Lemma same_timer_inv (f f' : Frame) : same_timer f f' → tick_inv f → tick_inv f'.
Proof.
  intros (Hh & Hid & Ht & Hr) Hinv i. rewrite Hh, Hid, Ht, Hr. apply Hinv.
Qed.

Section SessionProperties.

Variable RETRY : Z.
Variable REFRESH : Z.

(** C5. In a tick that finds the websocket connected with more than the
    refresh interval elapsed since [last_refresh_timestamp], the field is
    set to the time read at the start of the tick before [refresh()] is
    called; when [refresh()] answers false [relogin()] is entered exactly
    once, and when it answers true not at all.  The scenario with exactly
    [REFRESH + 1] seconds elapsed is an instance. *)
Theorem tick_connected_refreshes (s : WebBoilerSystem) (e : Env) :
  responses e (ncalls e) = Returns true →
  let now := clock e (nreads e) in
  let r := tick RETRY REFRESH (s, e) in
  (now - last_refresh_timestamp s > REFRESH →
     (∃ rest,
        emitted r
        = EvCall IsWebsocketConnected :: EvSetRefresh now
            :: EvLog Info "WebBoilerSystem::tick refresh data %s"
            :: EvCall Refresh :: rest)
     ∧ (responses e (S (ncalls e)) = Returns false →
          relogin_invocations (emitted r) = 1%nat)
     ∧ (responses e (S (ncalls e)) = Returns true →
          relogin_invocations (emitted r) = 0%nat
          ∧ last_refresh_timestamp (post r).1 = now))
  ∧ (now - last_refresh_timestamp s = REFRESH + 1 →
     responses e (S (ncalls e)) = Returns false →
     relogin_invocations (emitted r) = 1%nat).
Proof.
  intros Hconn now r.
  assert (Hgt : now - last_refresh_timestamp s > REFRESH →
                (now - last_refresh_timestamp s >? REFRESH) = true)
    by (intros; apply Z.gtb_lt; lia).
  subst now r. unfold_session. simpl. rewrite Hconn. simpl.
  split.
  - intros H. rewrite (Hgt H). simpl.
    split; [|split].
    + repeat next_answer; eexists; reflexivity.
    + intros Hf. simpl in Hf. rewrite Hf. simpl. repeat next_answer; reflexivity.
    + intros Ht. simpl in Ht. rewrite Ht. simpl. split; reflexivity.
  - intros H Hf. rewrite Hgt by lia. simpl.
    simpl in Hf. rewrite Hf. simpl. repeat next_answer; reflexivity.
Qed.

(** A tick that finds the websocket connected before the refresh interval
    has elapsed does nothing. *)
Lemma tick_connected_idle (s : WebBoilerSystem) (e : Env) :
  responses e (ncalls e) = Returns true →
  clock e (nreads e) - last_refresh_timestamp s ≤ REFRESH →
  emitted (tick RETRY REFRESH (s, e)) = [EvCall IsWebsocketConnected]
  ∧ (post (tick RETRY REFRESH (s, e))).1 = s.
Proof.
  intros Hconn Hle.
  assert (Hb : (clock e (nreads e) - last_refresh_timestamp s >? REFRESH) = false)
    by (rewrite Z.gtb_ltb; apply Z.ltb_ge; lia).
  unfold_session. simpl. rewrite Hconn. simpl. rewrite Hb. simpl.
  split; reflexivity.
Qed.

(** C3, as the code has it. In a tick that finds the websocket disconnected
    (the connectivity read answered false, or raised), the refresh branch of
    [tick()] is not reached: the tick is one [relogin()] when more than the
    retry interval has elapsed since [last_relogin_timestamp], and nothing
    at all otherwise.  [refresh()] is then called only inside that
    [relogin()], after the client's re-authentication has answered true. *)
Theorem tick_disconnected_relogin_or_nothing (s : WebBoilerSystem) (e : Env) :
  responses e (ncalls e) ≠ Returns true →
  let now := clock e (nreads e) in
  let f1 := after_connectivity_read s e in
  let r := tick RETRY REFRESH (s, e) in
  (now - last_relogin_timestamp s ≤ RETRY →
     r = (Ok tt, f1, [EvCall IsWebsocketConnected]))
  ∧ (now - last_relogin_timestamp s > RETRY →
     r = (out (relogin f1), post (relogin f1),
          EvCall IsWebsocketConnected
            :: EvLog Info "Centrometal WebBoilerSystem::tick trying to relogin %s"
            :: emitted (relogin f1)))
  ∧ (In Refresh (calls_of (emitted r)) →
     now - last_relogin_timestamp s > RETRY
     ∧ responses e (3 + ncalls e) = Returns true).
Proof.
  intros Hdisc now f1 r.
  assert (Hconn :
    tick RETRY REFRESH (s, e)
    = (if now - last_relogin_timestamp s >? RETRY
       then (out (relogin f1), post (relogin f1),
             EvCall IsWebsocketConnected
               :: EvLog Info "Centrometal WebBoilerSystem::tick trying to relogin %s"
               :: emitted (relogin f1))
       else (Ok tt, f1, [EvCall IsWebsocketConnected]))).
  { subst now f1. unfold tick, after_connectivity_read.
    unfold client_call, do_call, read_clock, self. unfold_monad. simpl.
    destruct (responses e (ncalls e)) as [[]|] eqn:E; [congruence | |]; simpl;
      destruct (_ >? RETRY); simpl; try reflexivity;
      destruct (relogin _) as [[[] []] ?]; reflexivity. }
  subst r. rewrite Hconn. clear Hconn.
  split; [|split].
  - intros Hle.
    replace (now - last_relogin_timestamp s >? RETRY) with false
      by (symmetry; rewrite Z.gtb_ltb; apply Z.ltb_ge; lia).
    reflexivity.
  - intros Hgt.
    replace (now - last_relogin_timestamp s >? RETRY) with true
      by (symmetry; apply Z.gtb_lt; lia).
    reflexivity.
  - destruct (now - last_relogin_timestamp s >? RETRY) eqn:Hb.
    + intros Hin. split; [apply Z.gtb_lt in Hb; lia|].
      simpl in Hin. destruct Hin as [Hin | Hin]; [discriminate Hin|].
      apply relogin_refresh_needs_success in Hin.
      simpl in Hin. exact Hin.
    + simpl. intros [H | []]. discriminate H.
Qed.

Lemma tick_same_timer (f : Frame) : same_timer f (post (tick RETRY REFRESH f)).
Proof.
  destruct f as [s e]. unfold same_timer. unfold_session. simpl.
  next_answer;
    repeat match goal with
           | |- context [if ?a >? ?b then _ else _] => destruct (a >? b); simpl
           end;
    repeat next_answer; repeat split; reflexivity.
Qed.

Lemma on_interval_same_timer (f : Frame) :
  same_timer f (post (_on_interval RETRY REFRESH f)).
Proof.
  pose proof (tick_same_timer f) as H.
  unfold _on_interval, try_except. unfold_monad.
  destruct (tick RETRY REFRESH f) as [[[] f'] evs]; simpl in *; exact H.
Qed.

(** The invariant of the tick timer holds after every method, and no method
    changes how the host's cancel handles behave. *)
Lemma run_method_inv (m : method) (f : Frame) :
  tick_inv f → tick_inv (post (run_method RETRY REFRESH m f)).
Proof.
  intros Hinv.
  assert (Hsame : ∀ f', same_timer f f' → tick_inv f')
    by (intros f' Hs; exact (same_timer_inv _ _ Hs Hinv)).
  destruct m; simpl.
  - pose proof (start_same_timer f) as H. apply Hsame.
    unfold_monad. destruct (start f) as [[[] f'] evs]; exact H.
  - by apply start_tick_inv.
  - by apply cancel_tick_inv.
  - pose proof (stop_same_timer f) as H. apply Hsame.
    unfold_monad. destruct (stop f) as [[[] f'] evs]; exact H.
  - apply Hsame, tick_same_timer.
  - apply Hsame, relogin_same_timer.
  - apply Hsame, on_interval_same_timer.
Qed.

Lemma run_method_handles (m : method) (f : Frame) :
  unsub_raises (post (run_method RETRY REFRESH m f)).2 = unsub_raises f.2.
Proof.
  assert (Hsame : ∀ f', same_timer f f' → unsub_raises f'.2 = unsub_raises f.2)
    by (by intros f' (_ & _ & _ & ?)).
  destruct m; simpl.
  - pose proof (start_same_timer f) as H. apply Hsame.
    unfold_monad. destruct (start f) as [[[] f'] evs]; exact H.
  - by destruct (start_tick_unfold f) as (_ & _ & _ & _ & Hr & _).
  - destruct f as [s e]. destruct (_tick_unsub s) as [u|] eqn:Hu.
    + by destruct (cancel_tick_present s e u Hu) as (_ & _ & _ & _ & Hr & _).
    + by rewrite (cancel_tick_absent s e Hu).
  - pose proof (stop_same_timer f) as H. apply Hsame.
    unfold_monad. destruct (stop f) as [[[] f'] evs]; exact H.
  - apply Hsame, tick_same_timer.
  - apply Hsame, relogin_same_timer.
  - apply Hsame, on_interval_same_timer.
Qed.

Lemma run_methods_inv (ms : list method) (f : Frame) :
  tick_inv f → tick_inv (run_methods RETRY REFRESH ms f).
Proof.
  revert f. induction ms as [|m ms IH]; intros f Hinv; simpl; [done|].
  by apply IH, run_method_inv.
Qed.

Lemma run_methods_handles (ms : list method) (f : Frame) :
  unsub_raises (run_methods RETRY REFRESH ms f).2 = unsub_raises f.2.
Proof.
  revert f. induction ms as [|m ms IH]; intros f; simpl; [done|].
  rewrite IH. apply run_method_handles.
Qed.

End SessionProperties.

(** *** Counting the active tick timers *)

Lemma is_tick_of_true (sid : nat) (cb : callback) :
  is_tick_of sid cb = true ↔ cb = CbTick sid.
Proof.
  destruct cb as [s|]; simpl; [|split; discriminate].
  rewrite bool_decide_eq_true. split; [by intros -> | by intros [= ->]].
Qed.

Lemma active_ticks_lookup (sid : nat) (e : Env) (i : nat) :
  In i (active_ticks sid e) ↔ timers e !! i = Some (CbTick sid).
Proof.
  unfold active_ticks. rewrite <- list_elem_of_In, list_elem_of_fmap. split.
  - intros ([j cb] & -> & Hin). apply list_elem_of_In, filter_In in Hin.
    destruct Hin as [Hin Htick]. simpl in *.
    apply is_tick_of_true in Htick as ->.
    by apply elem_of_map_to_list, list_elem_of_In.
  - intros Hi. exists (i, CbTick sid). split; [done|].
    apply list_elem_of_In, filter_In. split.
    + by apply list_elem_of_In, elem_of_map_to_list.
    + by apply is_tick_of_true.
Qed.

Lemma NoDup_fst_filter {A B} (p : A * B → bool) (l : list (A * B)) :
  NoDup l.*1 → NoDup (List.filter p l).*1.
Proof.
  induction l as [|x l IH]; simpl; [done|].
  rewrite NoDup_cons. intros [Hx Hl]. destruct (p x); simpl; [|by apply IH].
  apply NoDup_cons. split; [|by apply IH].
  intros Hin. apply Hx.
  apply list_elem_of_fmap in Hin as (y & Hy & Hin).
  apply list_elem_of_fmap. exists y. split; [done|].
  apply list_elem_of_In, filter_In in Hin as [Hin _]. by apply list_elem_of_In.
Qed.

Lemma active_ticks_NoDup (sid : nat) (e : Env) : NoDup (active_ticks sid e).
Proof. apply NoDup_fst_filter, NoDup_fst_map_to_list. Qed.

Lemma NoDup_all_equal {A} (l : list A) (a : A) :
  NoDup l → (∀ x, In x l → x = a) → (length l ≤ 1)%nat.
Proof.
  intros Hnd Hall. destruct l as [|x [|y l]]; simpl; [lia | lia |].
  exfalso. apply NoDup_cons in Hnd as [Hx _]. apply Hx.
  rewrite (Hall x), (Hall y); simpl; auto. left.
Qed.

(** With cancel handles that work, a session that satisfies the invariant
    has at most one active tick timer. *)
Lemma tick_inv_at_most_one (f : Frame) :
  tick_inv f → reliable_unsub f.2 →
  (length (active_ticks (sys_id f.1) f.2) ≤ 1)%nat.
Proof.
  intros Hinv Hrel.
  destruct (_tick_unsub f.1) as [u|] eqn:Hu.
  - apply (NoDup_all_equal _ u); [apply active_ticks_NoDup|].
    intros i Hi. apply active_ticks_lookup, Hinv in Hi as [Hi | Hi].
    + congruence.
    + rewrite Hrel in Hi. discriminate.
  - destruct (active_ticks (sys_id f.1) f.2) as [|i l] eqn:Hl; simpl; [lia|].
    assert (Hi : In i (active_ticks (sys_id f.1) f.2)) by (rewrite Hl; by left).
    apply active_ticks_lookup, Hinv in Hi as [Hi | Hi].
    + congruence.
    + rewrite Hrel in Hi. discriminate.
Qed.

Lemma NoDup_singleton_iff {A} (l : list A) (a : A) :
  NoDup l → (∀ x, In x l ↔ x = a) → l = [a].
Proof.
  intros Hnd Hall. destruct l as [|x [|y l]].
  - exfalso. by apply (Hall a).
  - f_equal. apply Hall. by left.
  - exfalso. apply NoDup_cons in Hnd as [Hx _]. apply Hx.
    assert (x = a) as -> by (apply Hall; simpl; auto).
    assert (y = a) as -> by (apply Hall; simpl; auto).
    left.
Qed.

Lemma start_tick_one_active (f : Frame) :
  tick_inv f → reliable_unsub f.2 →
  active_ticks (sys_id f.1) (post (start_tick f)).2 = [next_id f.2].
Proof.
  intros Hinv Hrel.
  pose proof (start_tick_inv f Hinv) as Hinv'.
  destruct (start_tick_unfold f) as (_ & _ & Hh & Hid & Hr & Ht).
  apply NoDup_singleton_iff; [apply active_ticks_NoDup|].
  intros i. rewrite active_ticks_lookup. split.
  - intros Hi. rewrite <- Hid in Hi. apply Hinv' in Hi as [Hi | Hi].
    + congruence.
    + rewrite Hr, Hrel in Hi. discriminate.
  - intros ->. rewrite Ht. apply lookup_insert_eq.
Qed.

Lemma cancel_tick_none_active (f : Frame) :
  tick_inv f → reliable_unsub f.2 →
  out (cancel_tick f) = Ok tt
  ∧ _tick_unsub (post (cancel_tick f)).1 = None
  ∧ active_ticks (sys_id f.1) (post (cancel_tick f)).2 = [].
Proof.
  intros Hinv Hrel.
  pose proof (cancel_tick_inv f Hinv) as Hinv'.
  assert (H : out (cancel_tick f) = Ok tt
              ∧ _tick_unsub (post (cancel_tick f)).1 = None
              ∧ sys_id (post (cancel_tick f)).1 = sys_id f.1
              ∧ unsub_raises (post (cancel_tick f)).2 = unsub_raises f.2).
  { destruct f as [s e]. destruct (_tick_unsub s) as [u|] eqn:Hu.
    - destruct (cancel_tick_present s e u Hu) as (? & _ & ? & ? & ? & _); done.
    - rewrite (cancel_tick_absent s e Hu). done. }
  destruct H as (Ho & Hh & Hid & Hr). repeat split; [done | done |].
  destruct (active_ticks _ _) as [|i l] eqn:Hl; [done|]. exfalso.
  assert (Hi : In i (active_ticks (sys_id f.1) (post (cancel_tick f)).2))
    by (rewrite Hl; by left).
  rewrite <- Hid in Hi. apply active_ticks_lookup, Hinv' in Hi as [Hi | Hi].
  - congruence.
  - rewrite Hr, Hrel in Hi. discriminate.
Qed.

(** C8. Whatever sequence of its methods has run, every active tick timer
    of a session is the one its handle names, or one whose cancellation
    raised; so with cancel handles that work the session has at most one
    active tick timer at any time.  [start_tick()] calls the handle of the
    timer in place before it installs the new one, and the new one is then
    the only active timer of the session; after [cancel_tick()] there is
    none.  [cancel_tick()] does nothing when no timer is present, does no
    harm when the timer was already cancelled, and returns normally with the
    handle forgotten when the cancellation itself raises. *)
Theorem one_tick_timer_per_session (RETRY REFRESH : Z) (ms : list method)
  (f0 : Frame) :
  tick_inv f0 →
  let f := run_methods RETRY REFRESH ms f0 in
  let sid := sys_id f.1 in
  let installed := EvTrack (next_id f.2) (CbTick sid) in
  tick_inv f
  ∧ (out (start_tick f) = Ok tt
     ∧ emitted (start_tick f)
       = match _tick_unsub f.1 with
         | Some u => [EvUnsub u; installed]
         | None => [installed]
         end
     ∧ _tick_unsub (post (start_tick f)).1 = Some (next_id f.2))
  ∧ (reliable_unsub f0.2 →
     (length (active_ticks sid f.2) ≤ 1)%nat
     ∧ active_ticks sid (post (start_tick f)).2 = [next_id f.2]
     ∧ out (cancel_tick f) = Ok tt
     ∧ _tick_unsub (post (cancel_tick f)).1 = None
     ∧ active_ticks sid (post (cancel_tick f)).2 = [])
  ∧ (∀ s e, _tick_unsub s = None → cancel_tick (s, e) = (Ok tt, (s, e), []))
  ∧ (∀ s e u, _tick_unsub s = Some u → timers e !! u = None →
       unsub_raises e u = false →
       out (cancel_tick (s, e)) = Ok tt
       ∧ timers (post (cancel_tick (s, e))).2 = timers e)
  ∧ (∀ s e u, _tick_unsub s = Some u → unsub_raises e u = true →
       out (cancel_tick (s, e)) = Ok tt
       ∧ emitted (cancel_tick (s, e)) = [EvUnsub u]
       ∧ _tick_unsub (post (cancel_tick (s, e))).1 = None).
Proof.
  intros Hinv0 f sid installed.
  pose proof (run_methods_inv RETRY REFRESH ms f0 Hinv0) as Hinv.
  fold f in Hinv.
  split; [exact Hinv|].
  split.
  { destruct (start_tick_unfold f) as (Ho & He & Hh & _).
    repeat split; [done | | done].
    rewrite He. subst installed sid. destruct f as [s e]. simpl.
    destruct (_tick_unsub s) as [u|] eqn:Hu.
    - destruct (cancel_tick_present s e u Hu) as (_ & -> & _). done.
    - by rewrite (cancel_tick_absent s e Hu). }
  split.
  { intros Hrel0.
    assert (Hrel : reliable_unsub f.2).
    { intros i. subst f. rewrite run_methods_handles. apply Hrel0. }
    split; [by apply tick_inv_at_most_one|].
    split; [by apply start_tick_one_active|].
    by apply cancel_tick_none_active. }
  split; [apply cancel_tick_absent|].
  split.
  - intros s e u Hu Hgone Hok.
    destruct (cancel_tick_present s e u Hu) as (? & _ & _ & _ & _ & _ & Ht).
    split; [done|]. rewrite Ht, Hok. by apply delete_id.
  - intros s e u Hu Hraise.
    destruct (cancel_tick_present s e u Hu) as (? & ? & ? & _). done.
Qed.

(** *** [start()] when login is refused *)

(** C1, as the code has it. When [login()] answers false, [start()] returns
    false having called nothing but [login()]: no websocket is opened, no
    refresh issued, and the session, its timer handle included, is as it
    was.  [start()] itself starts no timer.  The setup routine goes on to
    call [start_tick()] whatever [start()] returned, so that the session
    whose [start()] failed has an active tick timer when setup is over. *)
Theorem start_refused_login (s : WebBoilerSystem) (e : Env) :
  responses e (ncalls e) = Returns false →
  start (s, e)
  = (Ok false, (s, set_ncalls (S (ncalls e)) e),
     [EvLog Debug "Starting Centrometal Boiler System %s";
      EvCall Login;
      EvLog Error
        ("Authentication failed : Cannot login to Centrometal web boiler server "
         +:+ username s)])
  ∧ out (start_and_tick (s, e)) = Ok false
  ∧ calls_of (emitted (start_and_tick (s, e))) = [Login]
  ∧ _tick_unsub (post (start_and_tick (s, e))).1 = Some (next_id e)
  ∧ timers (post (start_and_tick (s, e))).2 !! next_id e = Some (CbTick (sys_id s)).
Proof.
  intros Hlogin. unfold_session. simpl. rewrite Hlogin. simpl.
  split; [reflexivity|].
  destruct (_tick_unsub s) as [u|]; simpl;
    [destruct (unsub_raises e u); simpl|];
    repeat split; try reflexivity; apply lookup_insert_eq.
Qed.

(** Against C1 as stated.  Setup of an entry whose login is refused:
    [start()] fails, which the setup routine logs, and the tick timer of
    the new session is installed all the same. *)
Lemma setup_starts_timer_after_failed_start :
  let w0 := (hass0, scripted [Returns false] [1700000000; 1700000001]) in
  let r := async_setup_entry entry0 w0 in
  out r = Ok true
  ∧ emitted r
    = [EvLog Debug "Setting up Centrometal Boiler System component";
       EvLog Debug "Starting Centrometal Boiler System %s";
       EvCall Login;
       EvLog Error
         "Authentication failed : Cannot login to Centrometal web boiler server user@example.org";
       EvLog Error
         "Got Access Denied Error when setting up Centrometal Boiler System: %s";
       EvListenStop 0;
       EvTrack 2 (CbTick 0);
       EvForwardSetups "entry-1";
       EvTrack 3 (CbWatchdog 1 "user@example.org" "entry-1");
       EvLog Debug "Centrometal Boiler System component setup finished %s"]
  ∧ _tick_unsub <$> (systems (post r).1 !! 0%nat) = Some (Some 2%nat)
  ∧ active_ticks 0 (post r).2 = [2%nat].
Proof. vm_compute. repeat split; reflexivity. Qed.

(** Against C3 as stated.  A tick that finds the websocket disconnected,
    with the retry interval elapsed and a re-authentication that succeeds:
    [refresh()] is called, from inside [relogin()]. *)
Lemma disconnected_tick_issues_refresh :
  let e := disconnected_then_recovers in
  responses e (ncalls e) = Returns false
  ∧ emitted (tick 60 600 (sys0, e))
    = [EvCall IsWebsocketConnected;
       EvLog Info "Centrometal WebBoilerSystem::tick trying to relogin %s";
       EvInvokeRelogin;
       EvSetRelogin 1062;
       EvCall CloseWebsocket;
       EvCall CloseSession;
       EvCall Relogin;
       EvCall StartWebsocket;
       EvCall Refresh;
       EvSetRefresh 1063]
  ∧ In Refresh (calls_of (emitted (tick 60 600 (sys0, e)))).
Proof. vm_compute. repeat split; auto 10. Qed.

(** ** The watchdog *)

(** *** The scan for the latest timestamp *)

Lemma scanned_app (ps qs : list parameter) :
  scanned (ps ++ qs)
  = if existsb uncaught ps then scanned ps else ps ++ scanned qs.
Proof.
  induction ps as [|p ps IH]; simpl; [done|].
  destruct (uncaught p); simpl; [done|].
  rewrite IH. by destruct (existsb uncaught ps).
Qed.

Lemma scanned_all (ps : list parameter) :
  existsb uncaught ps = false → scanned ps = ps.
Proof.
  induction ps as [|p ps IH]; simpl; [done|].
  destruct (uncaught p); simpl; [discriminate|]. intros H. by rewrite IH.
Qed.

(** The inner loop folds [update_latest] over the timestamps that convert,
    up to the first conversion that raises uncaught, and it raises exactly
    when there is one. *)
Lemma scan_params_fold (ps : list (string * parameter)) (latest : option Z) :
  (scan_params ps latest).2
  = fold_left update_latest (convertible (scanned ps.*2)) latest
  ∧ ((scan_params ps latest).1 = Ok tt ↔ existsb uncaught ps.*2 = false).
Proof.
  revert latest.
  induction ps as [|[k [[| |[z|[] msg]]]] ps IH]; intros latest; simpl;
    try apply IH; done.
Qed.

Lemma scan_devices_fold (ds : device_collection) (latest : option Z) :
  (scan_devices ds latest).2
  = fold_left update_latest (convertible (scanned (all_parameters ds))) latest.
Proof.
  revert latest. induction ds as [|[k d] ds IH]; intros latest; simpl; [done|].
  unfold all_parameters. simpl. rewrite scanned_app.
  destruct (scan_params_fold (default [] (parameters d)) latest) as [Hv Hs].
  destruct (scan_params (default [] (parameters d)) latest) as [[[]|ex] l'];
    simpl in *.
  - rewrite (proj1 Hs eq_refl), Hv, (scanned_all _ (proj1 Hs eq_refl)).
    unfold convertible. rewrite omap_app, fold_left_app. apply IH.
  - destruct (existsb uncaught _) eqn:Hx; [done|].
    assert (Hf : Raised ex = Ok tt) by (by apply Hs). discriminate Hf.
Qed.

Lemma update_latest_max (zs : list Z) (latest : option Z) :
  match fold_left update_latest zs latest with
  | None => latest = None ∧ zs = []
  | Some m =>
      (latest = Some m ∨ In m zs)
      ∧ (∀ z, In z zs → z ≤ m)
      ∧ (∀ l, latest = Some l → l ≤ m)
  end.
Proof.
  revert latest. induction zs as [|z zs IH]; intros latest; simpl.
  - destruct latest as [l|]; [|done]. repeat split; [by left | done |].
    intros ? [= ->]. lia.
  - specialize (IH (update_latest latest z)).
    destruct (fold_left update_latest zs (update_latest latest z)) as [m|].
    + destruct IH as (Hin & Hle & Hlat). unfold update_latest in *.
      destruct latest as [l|].
      * destruct (z >? l) eqn:Hz.
        -- apply Z.gtb_lt in Hz. specialize (Hlat z eq_refl).
           repeat split.
           ++ destruct Hin as [[= <-]|]; auto.
           ++ intros z' [<-|?]; auto.
           ++ intros ? [= <-]. lia.
        -- rewrite Z.gtb_ltb in Hz. apply Z.ltb_ge in Hz.
           specialize (Hlat l eq_refl).
           repeat split.
           ++ destruct Hin as [[= <-]|]; auto.
           ++ intros z' [<-|?]; [lia | auto].
           ++ intros ? [= <-]. lia.
      * specialize (Hlat z eq_refl). repeat split.
        -- destruct Hin as [[= <-]|]; auto.
        -- intros z' [<-|?]; auto.
        -- discriminate.
    + destruct IH as [Hu _]. unfold update_latest in Hu.
      destruct latest as [l|]; [destruct (z >? l)|]; discriminate.
Qed.

Lemma latest_of_max (data : device_collection) :
  is_max_of (convertible (scanned (all_parameters data))) (latest_of data).
Proof.
  unfold latest_of. rewrite scan_devices_fold.
  pose proof (update_latest_max (convertible (scanned (all_parameters data))) None) as H.
  unfold is_max_of. destruct (fold_left _ _ _) as [m|].
  - destruct H as ([?|?] & ? & _); [discriminate | done].
  - by destruct H.
Qed.

(** A list has one maximum at most, however it is ordered. *)
Lemma is_max_of_unique (zs zs' : list Z) (a b : option Z) :
  zs ≡ₚ zs' → is_max_of zs a → is_max_of zs' b → a = b.
Proof.
  intros Hp Ha Hb. destruct a as [m|], b as [m'|]; simpl in *.
  - destruct Ha as [Hin Hle], Hb as [Hin' Hle'].
    f_equal. apply Z.le_antisymm.
    + apply Hle'. apply list_elem_of_In. rewrite <- Hp. by apply list_elem_of_In.
    + apply Hle. apply list_elem_of_In. rewrite Hp. by apply list_elem_of_In.
  - subst zs'. apply Permutation_nil_r in Hp. subst zs. by destruct Ha.
  - subst zs. apply Permutation_nil_l in Hp. subst zs'. by destruct Hb.
  - done.
Qed.

(** A scan that no conversion cuts short finds the largest timestamp. *)
Lemma latest_of_clean (data : device_collection) (T : Z) :
  existsb uncaught (all_parameters data) = false →
  is_max_of (convertible (all_parameters data)) (Some T) →
  latest_of data = Some T.
Proof.
  intros Hclean Hmax. pose proof (latest_of_max data) as H.
  rewrite (scanned_all _ Hclean) in H.
  exact (is_max_of_unique _ _ _ _ (Permutation_refl _) H Hmax).
Qed.

(** [_latest_param_ts] always returns what the scan left in [latest], and
    leaves the state alone. *)
Lemma latest_param_ts_returns {S} (data : device_collection) (s : S) :
  out (_latest_param_ts data s) = Ok (latest_of data)
  ∧ post (_latest_param_ts data s) = s.
Proof.
  unfold _latest_param_ts, latest_of. unfold_monad.
  destruct (scan_devices data None) as [[[]|ex] latest]; done.
Qed.

(** What the scan returns, in general.  [_latest_param_ts] never raises.
    It passes over a parameter whose timestamp is missing, is [None], or
    makes [int()] raise [ValueError] or [TypeError]; a conversion that
    raises anything else ends the scan there.  The result is the maximum of
    the timestamps that convert among the parameters the scan got to, and
    [None] exactly when there is none; when no conversion raises anything
    but [ValueError] or [TypeError], those are all the parameters. *)
Lemma latest_param_ts_scan {S} (data : device_collection) (s : S) :
  ∃ latest,
    out (_latest_param_ts data s) = Ok latest
    ∧ post (_latest_param_ts data s) = s
    ∧ is_max_of (convertible (scanned (all_parameters data))) latest
    ∧ (existsb uncaught (all_parameters data) = false →
       is_max_of (convertible (all_parameters data)) latest).
Proof.
  exists (latest_of data).
  destruct (latest_param_ts_returns data s) as [Ho Hp].
  repeat split; [done | done | apply latest_of_max |].
  intros Hclean. rewrite <- (scanned_all _ Hclean) at 1. apply latest_of_max.
Qed.


(** C10.  A timestamp that is a float infinity is not passed over like the
    other timestamps [int()] cannot convert: the [OverflowError] ends the
    scan.  With the infinity first, the scan returns [None] although a
    parameter after it has a timestamp that converts; with a convertible
    timestamp before it and a larger one after it, the scan returns the
    smaller of the two. *)
Theorem overflow_hides_later_timestamps :
  out (_latest_param_ts hidden tt) = Ok None
  ∧ convertible (all_parameters hidden) = [1700000000]
  ∧ out (_latest_param_ts cut_short tt) = Ok (Some 1699999000)
  ∧ convertible (all_parameters cut_short) = [1699999000; 1700000000].
Proof. vm_compute. repeat split; reflexivity. Qed.

(** *** The reload reason *)

Ltac unfold_world :=
  unfold get_store, modify_store, pop_watchdog_unsub, cancel_if_present,
    setdefault_store, get_hass, put_hass, fresh, do_call, read_clock,
    async_track_time_interval, call_unsub in *;
  unfold_monad.

(** Disconnected, or the connectivity read raised: the reason is
    "websocket disconnected", and that one call is all that happened. *)
Lemma reload_reason_disconnected (st : Store) (client : nat) (now_ts : Z)
  (h : Hass) (e : Env) :
  responses e (ncalls e) ≠ Returns true →
  reload_reason st client now_ts (h, e)
  = (Ok (Some WebsocketDisconnected), (h, set_ncalls (S (ncalls e)) e),
     [EvCall IsWebsocketConnected]).
Proof.
  intros Hd. unfold reload_reason. unfold_world. simpl.
  destruct (responses e (ncalls e)) as [[]|]; [congruence | done | done].
Qed.

(** Connected: the reason comes from the timestamps alone. *)
Lemma reload_reason_connected (st : Store) (client : nat) (now_ts : Z)
  (h : Hass) (e : Env) :
  responses e (ncalls e) = Returns true →
  out (reload_reason st client now_ts (h, e))
  = Ok match latest_of (client_data e client) with
       | None =>
           if now_ts - default now_ts (_watchdog_started_ts st)
                >? _WATCHDOG_INTERVAL * 2
           then Some NoTimestamps
           else None
       | Some latest_ts =>
           if now_ts - latest_ts >? _STALE_SECONDS
           then Some (StaleData (now_ts - latest_ts))
           else None
       end
  ∧ post (reload_reason st client now_ts (h, e)) = (h, set_ncalls (S (ncalls e)) e).
Proof.
  intros Hc. unfold reload_reason. unfold_world. simpl. rewrite Hc. simpl.
  unfold _latest_param_ts, latest_of. unfold_monad.
  destruct (scan_devices (client_data e client) None) as [[[]|ex] [l|]]; simpl;
    repeat match goal with
           | |- context [if ?a >? ?b then _ else _] => destruct (a >? b); simpl
           end; done.
Qed.

(** The reason given one second past the threshold, as logged. *)
Lemma stale_reason_text :
  reason_text (StaleData (_STALE_SECONDS + 1)) = "stale data (601s > 600s)".
Proof. reflexivity. Qed.


(** Connected, and no conversion cuts the scan short: the reason is
    "stale data" exactly when the largest timestamp of the client's
    parameters is more than [_STALE_SECONDS] old. *)
Lemma reload_reason_clean_scan (st : Store) (client : nat) (T now_ts : Z)
  (h : Hass) (e : Env) :
  responses e (ncalls e) = Returns true →
  existsb uncaught (all_parameters (client_data e client)) = false →
  is_max_of (convertible (all_parameters (client_data e client))) (Some T) →
  out (reload_reason st client now_ts (h, e))
  = Ok (if now_ts - T >? _STALE_SECONDS
        then Some (StaleData (now_ts - T))
        else None).
Proof.
  intros Hc Hclean Hmax.
  rewrite (proj1 (reload_reason_connected st client now_ts h e Hc)).
  by rewrite (latest_of_clean _ T Hclean Hmax).
Qed.

(** C6.  The parameters of [cut_short] and of [hidden] have maximum
    timestamp [T] = 1700000000, but the [OverflowError] of the timestamp
    before it ends the scan early.  For the connected client of
    [cut_short] the check at [T + _STALE_SECONDS - 1] gives the reason
    "stale data", with the age of the older timestamp.  For the connected
    client of [hidden] the check at [T + _STALE_SECONDS + 1] gives no
    reason when the watchdog started less than two periods ago, and the
    reason "no timestamps available" when it started earlier. *)
Theorem stale_reason_after_aborted_scan :
  let T := 1700000000 in
  is_max_of (convertible (all_parameters cut_short)) (Some T)
  ∧ out (reload_reason started_store 0 (T + _STALE_SECONDS - 1)
           (hass0, connected_with cut_short))
    = Ok (Some (StaleData (1000 + _STALE_SECONDS - 1)))
  ∧ is_max_of (convertible (all_parameters hidden)) (Some T)
  ∧ out (reload_reason restarted_store 0 (T + _STALE_SECONDS + 1)
           (hass0, connected_with hidden))
    = Ok None
  ∧ out (reload_reason started_store 0 (T + _STALE_SECONDS + 1)
           (hass0, connected_with hidden))
    = Ok (Some NoTimestamps).
Proof.
  simpl. split; [|split; [reflexivity|split; [|split; reflexivity]]].
  - split; [right; left; reflexivity|]. intros z [<-|[<-|[]]]; lia.
  - split; [left; reflexivity|]. intros z [<-|[]]; lia.
Qed.

(** C7. For a connected account with no parameter timestamp, the reason is
    "no timestamps available" exactly when more than two watchdog periods
    have passed since the recorded start of the watchdog, and there is no
    reason before that (nor when no start was recorded). *)
Theorem no_timestamps_after_two_periods (st : Store) (client : nat) (now_ts : Z)
  (h : Hass) (e : Env) :
  responses e (ncalls e) = Returns true →
  latest_of (client_data e client) = None →
  let r := out (reload_reason st client now_ts (h, e)) in
  (∀ started, _watchdog_started_ts st = Some started →
     (r = Ok (Some NoTimestamps) ↔ now_ts - started > 2 * _WATCHDOG_INTERVAL)
     ∧ (now_ts - started ≤ 2 * _WATCHDOG_INTERVAL → r = Ok None))
  ∧ (_watchdog_started_ts st = None → r = Ok None).
Proof.
  intros Hc Hnone r. subst r.
  rewrite (proj1 (reload_reason_connected st client now_ts h e Hc)), Hnone.
  split.
  - intros started ->. simpl.
    destruct (now_ts - started >? _WATCHDOG_INTERVAL * 2) eqn:Hb.
    + apply Z.gtb_lt in Hb. split; [split; [lia | done] | lia].
    + rewrite Z.gtb_ltb in Hb. apply Z.ltb_ge in Hb.
      split; [split; [discriminate | lia] | done].
  - intros ->. simpl. replace (now_ts - now_ts) with 0 by lia. reflexivity.
Qed.

(** *** Cooldown and reload *)

(** What a watchdog tick does once it has a reason, on the store it
    captured: within the cooldown since the store's [_last_reload_ts] it
    only logs; otherwise it records the time, calls its own cancel handle,
    and then schedules the reload. *)
Lemma watchdog_tick_decision (loc : nat) (entry : string) (h : Hass) (e : Env)
  (st : Store) (c : nat) (r : reason) (evs : list event) :
  stores h !! loc = Some st →
  WEB_BOILER_CLIENT st = Some c →
  let now_ts := clock e (nreads e) in
  let e1 := set_nreads (S (nreads e)) e in
  let e2 := set_ncalls (S (ncalls e)) e1 in
  reload_reason st c now_ts (h, e1) = (Ok (Some r), (h, e2), evs) →
  let last_reload := default 0 (_last_reload_ts st) in
  (now_ts - last_reload < _RELOAD_COOLDOWN_SECONDS →
     _tick loc entry (h, e)
     = (Ok tt, (h, e2),
        evs ++ [EvCooldown r (_RELOAD_COOLDOWN_SECONDS - (now_ts - last_reload))]))
  ∧ (_RELOAD_COOLDOWN_SECONDS ≤ now_ts - last_reload →
     out (_tick loc entry (h, e)) = Ok tt
     ∧ emitted (_tick loc entry (h, e))
       = evs ++ [EvReloading r]
           ++ match _watchdog_unsub st with
              | Some u => [EvUnsub u]
              | None => []
              end
           ++ [EvCreateReloadTask entry]
     ∧ stores (post (_tick loc entry (h, e))).1 !! loc
       = Some (put_watchdog_unsub (put_last_reload_ts st (Some now_ts)) None)
     ∧ timers (post (_tick loc entry (h, e))).2
       = match _watchdog_unsub st with
         | Some u => if unsub_raises e u then timers e else delete u (timers e)
         | None => timers e
         end).
Proof.
  intros Hst Hc now_ts e1 e2 Hrr last_reload.
  unfold _tick. unfold_world. simpl. rewrite Hst. simpl. rewrite Hc. simpl.
  fold now_ts. fold e1. rewrite Hrr. simpl. fold last_reload.
  split.
  - intros Hlt.
    replace (now_ts - last_reload <? _RELOAD_COOLDOWN_SECONDS) with true
      by (symmetry; apply Z.ltb_lt; lia).
    reflexivity.
  - intros Hge.
    replace (now_ts - last_reload <? _RELOAD_COOLDOWN_SECONDS) with false
      by (symmetry; apply Z.ltb_ge; lia).
    simpl. clear Hrr.
    repeat (progress (unfold_world; simpl; rewrite ?Hst, ?lookup_insert_eq; simpl)).
    destruct st as [sy cl [u|] lr ws]; simpl.
    + destruct (unsub_raises e u); simpl; rewrite ?lookup_insert_eq;
        repeat split; rewrite <- ?app_assoc; reflexivity.
    + rewrite ?lookup_insert_eq. repeat split; rewrite <- ?app_assoc; reflexivity.
Qed.

(** On one and the same store the cooldown holds: with the last reload
    recorded at [t0], a disconnection found one second later is logged and
    nothing else happens, and one found a second after the cooldown has
    passed schedules a reload. *)
Lemma cooldown_on_one_store (loc : nat) (entry : string) (h : Hass) (e : Env)
  (st : Store) (c : nat) (t0 : Z) :
  stores h !! loc = Some st →
  WEB_BOILER_CLIENT st = Some c →
  _last_reload_ts st = Some t0 →
  responses e (ncalls e) ≠ Returns true →
  (clock e (nreads e) = t0 + 1 →
     emitted (_tick loc entry (h, e))
     = [EvCall IsWebsocketConnected;
        EvCooldown WebsocketDisconnected (_RELOAD_COOLDOWN_SECONDS - 1)]
     ∧ (post (_tick loc entry (h, e))).1 = h
     ∧ timers (post (_tick loc entry (h, e))).2 = timers e)
  ∧ (clock e (nreads e) = t0 + _RELOAD_COOLDOWN_SECONDS + 1 →
     emitted (_tick loc entry (h, e))
     = [EvCall IsWebsocketConnected; EvReloading WebsocketDisconnected]
         ++ match _watchdog_unsub st with
            | Some u => [EvUnsub u]
            | None => []
            end
         ++ [EvCreateReloadTask entry]).
Proof.
  intros Hst Hc Hlast Hd.
  assert (Hrr :
    reload_reason st c (clock e (nreads e)) (h, set_nreads (S (nreads e)) e)
    = (Ok (Some WebsocketDisconnected),
       (h, set_ncalls (S (ncalls e)) (set_nreads (S (nreads e)) e)),
       [EvCall IsWebsocketConnected]))
    by (apply (reload_reason_disconnected st c _ h (set_nreads (S (nreads e)) e));
        exact Hd).
  destruct (watchdog_tick_decision loc entry h e st c WebsocketDisconnected
              [EvCall IsWebsocketConnected] Hst Hc Hrr) as [Hcool Hfire].
  rewrite Hlast in Hcool, Hfire. simpl in Hcool, Hfire.
  split; intros Hnow.
  - rewrite Hcool by (unfold _RELOAD_COOLDOWN_SECONDS; lia). rewrite Hnow. simpl.
    replace (t0 + 1 - t0) with 1 by lia. done.
  - destruct Hfire as (_ & He & _); [lia|]. by rewrite He.
Qed.

(** Starting a watchdog on a store that records one: the recorded handle is
    called first, then the new timer is installed and recorded, with the
    time of the start; the last reload time stays. *)
Lemma start_or_replace_on_store (entry : ConfigEntry) (user : string) (h : Hass)
  (e : Env) (loc : nat) (st : Store) :
  hass_data h !! user = Some loc →
  stores h !! loc = Some st →
  let r := _start_or_replace_watchdog entry user (h, e) in
  let cb := CbWatchdog loc user (entry_id entry) in
  out r = Ok tt
  ∧ emitted r
    = match _watchdog_unsub st with
      | Some u => [EvUnsub u; EvTrack (next_id e) cb]
      | None => [EvTrack (next_id e) cb]
      end
  ∧ stores (post r).1 !! loc
    = Some (mkStore (WEB_BOILER_SYSTEM st) (WEB_BOILER_CLIENT st)
                    (Some (next_id e))
                    (Some (default 0 (_last_reload_ts st)))
                    (Some (clock e (nreads e))))
  ∧ timers (post r).2
    = <[next_id e := cb]>
        match _watchdog_unsub st with
        | Some u => if unsub_raises e u then timers e else delete u (timers e)
        | None => timers e
        end.
Proof.
  intros Hd Hst. unfold _start_or_replace_watchdog.
  repeat (progress (unfold_world; simpl;
                    rewrite ?Hd, ?Hst, ?lookup_insert_eq; simpl)).
  destruct st as [sy cl [u|] lr ws]; simpl.
  - destruct (unsub_raises e u); simpl;
      repeat (progress (rewrite ?lookup_insert_eq; simpl));
      repeat split; reflexivity.
  - repeat (progress (rewrite ?lookup_insert_eq; simpl)).
    repeat split; reflexivity.
Qed.

(** C2, at the input where the code fails it. The server is unreachable.
    The watchdog of the first setup finds the websocket disconnected and
    schedules a reload at 1700000121.  The reload unloads the entry, which
    drops the account's store and the reload time it records, and sets the
    entry up again on a new store whose [_last_reload_ts] is 0.  The new
    watchdog finds the websocket disconnected at its first period,
    1700000243, and schedules a second reload, 122 seconds after the first
    and well within the cooldown of 900 seconds. *)
Theorem reload_twice_within_cooldown :
  let w1 := post (async_setup_entry entry0 server_down) in
  let r2 := fire 60 600 3 w1 in
  let r3 := async_reload entry0 (post r2) in
  let r4 := fire 60 600 7 (post r3) in
  emitted r2
  = [EvCall IsWebsocketConnected; EvReloading WebsocketDisconnected;
     EvUnsub 3; EvCreateReloadTask "entry-1"]
  ∧ _last_reload_ts <$> (stores (post r2).1 !! 1%nat) = Some (Some 1700000121)
  ∧ out r3 = Ok true
  ∧ account_store (post r3).1 "user@example.org"
    = Some (mkStore (Some 4%nat) (Some 4%nat) (Some 7%nat) (Some 0)
                    (Some 1700000123))
  ∧ emitted r4
    = [EvCall IsWebsocketConnected; EvReloading WebsocketDisconnected;
       EvUnsub 7; EvCreateReloadTask "entry-1"]
  ∧ _last_reload_ts <$> (stores (post r4).1 !! 5%nat) = Some (Some 1700000243)
  ∧ 1700000243 - 1700000121 < _RELOAD_COOLDOWN_SECONDS.
Proof. vm_compute. repeat split; reflexivity. Qed.

(** C9, at the input where the code fails it. An entry is set up and all is
    well; its watchdog is timer 3, on store 1.  The entry is then reloaded
    (unloaded and set up again).  Unloading drops store 1 from the registry
    without calling the watchdog handle it records, and the new setup
    starts watchdog 7 on the new store 5, where no handle is recorded: the
    account has two active watchdogs.  The old one still fires, finds the
    websocket of the closed client disconnected, and schedules a reload. *)
Theorem two_watchdogs_after_reload :
  let user := "user@example.org" in
  let w1 := post (async_setup_entry entry0 all_well) in
  let r2 := async_reload entry0 w1 in
  let r3 := fire 60 600 3 (post r2) in
  active_watchdogs user w1.2 = [3%nat]
  ∧ out r2 = Ok true
  ∧ hass_data (post r2).1 !! user = Some 5%nat
  ∧ timers (post r2).2 !! 3%nat = Some (CbWatchdog 1 user "entry-1")
  ∧ timers (post r2).2 !! 7%nat = Some (CbWatchdog 5 user "entry-1")
  ∧ length (active_watchdogs user (post r2).2) = 2%nat
  ∧ emitted r3
    = [EvCall IsWebsocketConnected; EvReloading WebsocketDisconnected;
       EvUnsub 3; EvCreateReloadTask "entry-1"].
Proof. vm_compute. repeat split; reflexivity. Qed.

(** ** The properties at concrete inputs *)

(** C1 as amended, on [sys0] with login refused. *)
Lemma start_refused_login_witness :
  responses login_refused (ncalls login_refused) = Returns false
  ∧ out (start_and_tick (sys0, login_refused)) = Ok false
  ∧ calls_of (emitted (start_and_tick (sys0, login_refused))) = [Login]
  ∧ _tick_unsub (post (start_and_tick (sys0, login_refused))).1 = Some 0%nat.
Proof.
  split; [reflexivity|].
  destruct (start_refused_login sys0 login_refused eq_refl)
    as (_ & Ho & Hc & Hh & _).
  split; [exact Ho | split; [exact Hc | exact Hh]].
Defined.

(** C3 as amended, on [sys0], disconnected and past the retry interval of
    60 seconds: the tick is one [relogin()]. *)
Lemma tick_disconnected_witness :
  let e := disconnected_then_recovers in
  let f1 := after_connectivity_read sys0 e in
  responses e (ncalls e) ≠ Returns true
  ∧ clock e (nreads e) - last_relogin_timestamp sys0 > 60
  ∧ tick 60 600 (sys0, e)
    = (out (relogin f1), post (relogin f1),
       EvCall IsWebsocketConnected
         :: EvLog Info "Centrometal WebBoilerSystem::tick trying to relogin %s"
         :: emitted (relogin f1)).
Proof.
  assert (Hd : responses disconnected_then_recovers
                 (ncalls disconnected_then_recovers) ≠ Returns true)
    by discriminate.
  split; [exact Hd|]. split; [reflexivity|].
  apply (tick_disconnected_relogin_or_nothing 60 600 sys0
           disconnected_then_recovers Hd).
  reflexivity.
Defined.

(** C5 on [sys0], connected, exactly one second past the refresh interval
    of 600 seconds, with a refresh that fails. *)
Lemma tick_connected_witness :
  let e := connected_refresh_fails in
  responses e (ncalls e) = Returns true
  ∧ clock e (nreads e) - last_refresh_timestamp sys0 = 600 + 1
  ∧ responses e (S (ncalls e)) = Returns false
  ∧ relogin_invocations (emitted (tick 60 600 (sys0, e))) = 1%nat.
Proof.
  split; [reflexivity|]. split; [reflexivity|]. split; [reflexivity|].
  apply (tick_connected_refreshes 60 600 sys0 connected_refresh_fails eq_refl);
    reflexivity.
Defined.


(** C7 for a client without devices, 241 and 240 seconds after the start
    of the watchdog. *)
Lemma no_timestamps_witness :
  let e := connected_with [] in
  responses e (ncalls e) = Returns true
  ∧ latest_of (client_data e 0%nat) = None
  ∧ out (reload_reason started_store 0 (1700000000 + 241) (hass0, e))
    = Ok (Some NoTimestamps)
  ∧ out (reload_reason started_store 0 (1700000000 + 240) (hass0, e)) = Ok None.
Proof.
  split; [reflexivity|]. split; [reflexivity|].
  destruct (no_timestamps_after_two_periods started_store 0 (1700000000 + 241)
              hass0 (connected_with []) eq_refl eq_refl) as [Hlate _].
  destruct (no_timestamps_after_two_periods started_store 0 (1700000000 + 240)
              hass0 (connected_with []) eq_refl eq_refl) as [Hearly _].
  split.
  - apply (Hlate 1700000000 eq_refl). reflexivity.
  - apply (Hearly 1700000000 eq_refl). discriminate.
Defined.

(** C8 for [sys0] after two [start_tick()] with a tick between them and a
    relogin after. *)
Lemma one_tick_timer_witness :
  let f := run_methods 60 600 [MStartTick; MTick; MStartTick; MRelogin]
             (sys0, login_refused) in
  tick_inv (sys0, login_refused)
  ∧ reliable_unsub login_refused
  ∧ (length (active_ticks (sys_id f.1) f.2) ≤ 1)%nat
  ∧ active_ticks (sys_id f.1) (post (start_tick f)).2 = [next_id f.2]
  ∧ active_ticks (sys_id f.1) (post (cancel_tick f)).2 = [].
Proof.
  assert (Hinv : tick_inv (sys0, login_refused)).
  { intros i Hi. simpl in Hi. rewrite lookup_empty in Hi. discriminate Hi. }
  assert (Hrel : reliable_unsub login_refused) by (intros i; reflexivity).
  split; [exact Hinv|]. split; [exact Hrel|].
  destruct (one_tick_timer_per_session 60 600
              [MStartTick; MTick; MStartTick; MRelogin] (sys0, login_refused)
              Hinv)
    as (_ & _ & Hone & _).
  destruct (Hone Hrel) as (H1 & Hstart & _ & _ & Hcancel).
  split; [exact H1|]. split; [exact Hstart | exact Hcancel].
Defined.


(** * Further properties of the session controller *)

(** ** [start()] *)


(** X2. [start()] changes nothing in the session when it fails; when it
    succeeds it sets [last_refresh_timestamp] to the time read after the
    refresh, and nothing else. *)
Theorem start_session_effect (s : WebBoilerSystem) (e : Env) :
  (out (start (s, e)) = Ok false → (post (start (s, e))).1 = s)
  ∧ (out (start (s, e)) = Ok true →
     (post (start (s, e))).1 = with_last_refresh (clock e (nreads e)) s).
Proof.
  unfold with_last_refresh. unfold_session. simpl.
  repeat next_answer;
    repeat match goal with
           | |- context [(?n =? 0)%nat] => destruct (n =? 0)%nat; simpl
           end;
    repeat next_answer; split; intros H; try discriminate H; try reflexivity;
    by destruct s.
Qed.

(** ** [relogin()] *)


(** X4. [relogin()] moves [last_refresh_timestamp] only when the
    re-authentication and the refresh after it both answer true (and the
    websocket start between them does not raise): the field then holds the
    time read after that refresh.  In every other case it is as before. *)
Theorem relogin_refresh_timestamp (s : WebBoilerSystem) (e : Env) :
  let n := ncalls e in
  let recovered :=
    responses e (S (S n)) = Returns true
    ∧ (∃ b, responses e (S (S (S n))) = Returns b)
    ∧ responses e (S (S (S (S n)))) = Returns true in
  (recovered →
     last_refresh_timestamp (post (relogin (s, e))).1 = clock e (S (nreads e)))
  ∧ (¬ recovered →
     last_refresh_timestamp (post (relogin (s, e))).1 = last_refresh_timestamp s).
Proof.
  unfold_session. simpl.
  repeat next_answer; split;
    try (intros (? & [? ?] & ?); congruence); try reflexivity;
    intros H; try reflexivity; exfalso; apply H; eauto.
Qed.

(** ** Two timer callbacks in a row *)

Section Gating.

Variable RETRY : Z.
Variable REFRESH : Z.



(** A callback that finds the websocket connected before the refresh
    interval has elapsed makes the connectivity call and nothing else. *)
Lemma on_interval_connected_idle (s : WebBoilerSystem) (e : Env) :
  responses e (ncalls e) = Returns true →
  clock e (nreads e) - last_refresh_timestamp s ≤ REFRESH →
  _on_interval RETRY REFRESH (s, e)
  = (Ok tt, after_connectivity_read s e, [EvCall IsWebsocketConnected]).
Proof.
  intros Hc Hle.
  assert (Hb : (clock e (nreads e) - last_refresh_timestamp s >? REFRESH) = false)
    by (rewrite Z.gtb_ltb; apply Z.ltb_ge; lia).
  unfold after_connectivity_read. unfold_session. simpl.
  rewrite Hc. simpl. rewrite Hb. reflexivity.
Qed.



(** X6. While the websocket stays connected, a refresh that succeeded is
    not repeated within the refresh interval.  When a callback found the
    websocket connected with the refresh interval elapsed and [refresh()]
    answered true, [last_refresh_timestamp] is the time read at the start
    of that callback; if the next callback finds the websocket connected,
    no more than the refresh interval after that time, it makes the
    connectivity call and nothing else.  (A next callback that finds the
    websocket disconnected is another matter: the [relogin()] it may enter
    refreshes on its own.) *)
Theorem refresh_not_repeated_within_interval (s : WebBoilerSystem) (e : Env) :
  responses e (ncalls e) = Returns true →
  clock e (nreads e) - last_refresh_timestamp s > REFRESH →
  responses e (S (ncalls e)) = Returns true →
  let r1 := _on_interval RETRY REFRESH (s, e) in
  let s' := (post r1).1 in
  let e' := (post r1).2 in
  calls_of (emitted r1) = [IsWebsocketConnected; Refresh]
  ∧ last_refresh_timestamp s' = clock e (nreads e)
  ∧ (responses e' (ncalls e') = Returns true →
     clock e' (nreads e') - clock e (nreads e) ≤ REFRESH →
     _on_interval RETRY REFRESH (s', e')
     = (Ok tt, after_connectivity_read s' e', [EvCall IsWebsocketConnected])).
Proof.
  intros Hc Hgt Hok r1 s' e'.
  assert (Hb : (clock e (nreads e) - last_refresh_timestamp s >? REFRESH) = true)
    by (apply Z.gtb_lt; lia).
  assert (H1 : calls_of (emitted r1) = [IsWebsocketConnected; Refresh]
               ∧ last_refresh_timestamp s' = clock e (nreads e)).
  { subst s' r1. unfold_session. simpl. rewrite Hc. simpl. rewrite Hb. simpl.
    simpl in Hok. rewrite Hok. simpl. split; reflexivity. }
  destruct H1 as [Hcalls Hstamp].
  split; [exact Hcalls|]. split; [exact Hstamp|].
  intros Hc' Hle. apply on_interval_connected_idle; [exact Hc'|].
  rewrite Hstamp. exact Hle.
Qed.

End Gating.

(** * Further properties of setup and unload *)

(** On a session without a timer, the part of setup that runs on the
    session never raises, installs one timer, the session's tick timer,
    under the next free identity, and keeps the session's identity and
    account. *)
Lemma start_and_tick_fresh (s : WebBoilerSystem) (e : Env) :
  _tick_unsub s = None →
  ∃ b s' e' evs,
    start_and_tick (s, e) = (Ok b, (s', e'), evs)
    ∧ _tick_unsub s' = Some (next_id e)
    ∧ sys_id s' = sys_id s
    ∧ username s' = username s
    ∧ timers e' = <[next_id e := CbTick (sys_id s)]> (timers e)
    ∧ next_id e' = S (next_id e)
    ∧ unsub_raises e' = unsub_raises e.
Proof.
  intros Hn. unfold_session. simpl.
  repeat next_answer;
    repeat match goal with
           | |- context [(?n =? 0)%nat] => destruct (n =? 0)%nat; simpl
           end;
    repeat next_answer; rewrite Hn; simpl;
    do 4 eexists; (split; [reflexivity|]); simpl; repeat split; reflexivity.
Qed.

(** [_start_or_replace_watchdog] on a registered account, in full: only the
    account's store changes. *)
Lemma start_or_replace_full (entry : ConfigEntry) (user : string) (h : Hass)
  (e : Env) (loc : nat) (st : Store) :
  hass_data h !! user = Some loc →
  stores h !! loc = Some st →
  let r := _start_or_replace_watchdog entry user (h, e) in
  let cb := CbWatchdog loc user (entry_id entry) in
  let st' := mkStore (WEB_BOILER_SYSTEM st) (WEB_BOILER_CLIENT st)
               (Some (next_id e)) (Some (default 0 (_last_reload_ts st)))
               (Some (clock e (nreads e))) in
  out r = Ok tt
  ∧ (post r).1 = mkHass (systems h) (<[loc := st']> (stores h)) (hass_data h)
  ∧ timers (post r).2
    = <[next_id e := cb]>
        match _watchdog_unsub st with
        | Some u => if unsub_raises e u then timers e else delete u (timers e)
        | None => timers e
        end
  ∧ next_id (post r).2 = S (next_id e)
  ∧ unsub_raises (post r).2 = unsub_raises e
  ∧ emitted r
    = match _watchdog_unsub st with
      | Some u => [EvUnsub u; EvTrack (next_id e) cb]
      | None => [EvTrack (next_id e) cb]
      end.
Proof.
  intros Hd Hst. unfold _start_or_replace_watchdog.
  repeat (progress (unfold_world; simpl;
                    rewrite ?Hd, ?Hst, ?lookup_insert_eq, ?insert_insert_eq; simpl)).
  destruct st as [sy cl [u|] lr ws]; simpl.
  - destruct (unsub_raises e u); simpl;
      repeat (progress (rewrite ?lookup_insert_eq, ?insert_insert_eq; simpl));
      repeat split; reflexivity.
  - repeat (progress (rewrite ?lookup_insert_eq, ?insert_insert_eq; simpl)).
    repeat split; reflexivity.
Qed.

(** What setup does to the world, in full. *)
Lemma setup_effect (entry : ConfigEntry) (h : Hass) (e : Env) :
  let r := async_setup_entry entry (h, e) in
  let user := conf_email entry in
  let sid := next_id e in
  let loc := S sid in
  let tick_id := S (S sid) in
  let wd_id := S (S (S sid)) in
  out r = Ok true
  ∧ hass_data (post r).1 = <[user := loc]> (hass_data h)
  ∧ (∃ started,
       stores (post r).1
       = <[loc := mkStore (Some sid) (Some sid) (Some wd_id) (Some 0)
                    (Some started)]> (stores h))
  ∧ (∃ s',
       systems (post r).1 = <[sid := s']> (systems h)
       ∧ sys_id s' = sid
       ∧ username s' = user
       ∧ _tick_unsub s' = Some tick_id)
  ∧ timers (post r).2
    = <[wd_id := CbWatchdog loc user (entry_id entry)]>
        (<[tick_id := CbTick sid]> (timers e))
  ∧ next_id (post r).2 = S wd_id
  ∧ unsub_raises (post r).2 = unsub_raises e.
Proof.
  intros r user sid loc tick_id wd_id. subst r.
  unfold async_setup_entry, WebBoilerSystem_init, async_forward_entry_setups,
    sensor_async_setup_entry, on_system, account_store.
  repeat (progress (unfold_world; simpl;
                    rewrite ?lookup_insert_eq, ?insert_insert_eq; simpl)).
  match goal with
  | |- context [start_and_tick (?s0, ?e0)] =>
      destruct (start_and_tick_fresh s0 e0 eq_refl)
        as (b & s' & e' & evs & Heq & Hh & Hid & Hu & Ht & Hn & Hr)
  end.
  rewrite Heq. simpl in *.
  repeat (progress (rewrite ?lookup_insert_eq, ?insert_insert_eq; simpl)).
  match goal with
  | |- context [_start_or_replace_watchdog entry ?u (?h2, e')] =>
      pose proof (start_or_replace_full entry u h2 e' (S (next_id e))
                    (put_client (put_system empty_dict (Some (next_id e)))
                       (Some (next_id e)))) as Hw;
      simpl in Hw; rewrite !lookup_insert_eq in Hw;
      specialize (Hw eq_refl eq_refl);
      destruct (_start_or_replace_watchdog entry u (h2, e')) as [[ro [ho eo]] evo]
  end.
  unfold out, post, emitted in Hw. simpl in Hw.
  destruct Hw as (-> & -> & Hto & Hno & Hro & _). simpl.
  rewrite insert_insert_eq.
  subst user sid loc tick_id wd_id.
  rewrite Hto, Ht, Hno, Hn, Hro, Hr. simpl.
  repeat split; eauto.
Qed.


(** What unload does to a registered account, in full. *)
Lemma unload_effect (entry : ConfigEntry) (h : Hass) (e : Env)
  (loc sid : nat) (st : Store) (s : WebBoilerSystem) :
  hass_data h !! conf_email entry = Some loc →
  stores h !! loc = Some st →
  WEB_BOILER_SYSTEM st = Some sid →
  systems h !! sid = Some s →
  let r := async_unload_entry entry (h, e) in
  let tick_cancelled :=
    match _tick_unsub s with
    | Some u => if unsub_raises e u then timers e else delete u (timers e)
    | None => timers e
    end in
  emitted r
  = match _tick_unsub s with
    | Some u => [EvUnsub u]
    | None => []
    end
      ++ [EvLog Debug "Stopping Centrometal WebBoilerSystem %s";
          EvCall CloseWebsocket; EvCall AsyncUnloadPlatforms]
  ∧ timers (post r).2 = tick_cancelled
  ∧ stores (post r).1 = stores h
  ∧ _tick_unsub <$> (systems (post r).1 !! sid) = Some None
  ∧ (∀ b, responses e (S (ncalls e)) = Returns b →
       out r = Ok b
       ∧ hass_data (post r).1 = delete (conf_email entry) (hass_data h))
  ∧ (∀ msg, responses e (S (ncalls e)) = Raises msg →
       out r = Raised msg ∧ hass_data (post r).1 = hass_data h).
Proof.
  intros Hd Hst Hsys Hs r tick_cancelled. subst r tick_cancelled.
  assert (Htruthy : dict_truthy st = true)
    by (destruct st as [[?|] ? ? ? ?]; [reflexivity | discriminate Hsys]).
  unfold async_unload_entry, on_system, account_store.
  repeat (progress (unfold_world; simpl; rewrite ?Hd, ?Hst, ?Htruthy, ?Hsys, ?Hs; simpl)).
  unfold_session. simpl.
  destruct s as [i u lr lf [t|]]; simpl.
  - destruct (unsub_raises e t); simpl;
      rewrite ?lookup_insert_eq; simpl;
      destruct (responses e (ncalls e)) as [[]|]; simpl;
      rewrite ?lookup_insert_eq; simpl;
      destruct (responses e (S (ncalls e))) as [[]|] eqn:E; simpl;
      rewrite ?lookup_insert_eq; simpl;
      repeat split; try reflexivity; congruence.
  - rewrite ?lookup_insert_eq; simpl;
      destruct (responses e (ncalls e)) as [[]|]; simpl;
      rewrite ?lookup_insert_eq; simpl;
      destruct (responses e (S (ncalls e))) as [[]|] eqn:E; simpl;
      rewrite ?lookup_insert_eq; simpl;
      repeat split; try reflexivity; congruence.
Qed.



(** X9. Unloading an account the registry does not know: the platforms are
    unloaded and nothing else happens. *)
Theorem unload_unknown_account (entry : ConfigEntry) (h : Hass) (e : Env) :
  hass_data h !! conf_email entry = None →
  emitted (async_unload_entry entry (h, e)) = [EvCall AsyncUnloadPlatforms]
  ∧ (post (async_unload_entry entry (h, e))).1 = h
  ∧ timers (post (async_unload_entry entry (h, e))).2 = timers e.
Proof.
  intros Hd. unfold async_unload_entry, account_store.
  repeat (progress (unfold_world; simpl; rewrite ?Hd; simpl)).
  destruct (responses e (ncalls e)) as [[]|]; simpl;
    rewrite ?(delete_id _ _ Hd); repeat split; try reflexivity;
    by destruct h.
Qed.

(** X10. Setup followed by unload.  For an account that was not registered, with
    the two timer identities free and a tick handle that works, the
    registry of accounts is as it was before the setup once the platforms are
    unloaded, and the session's tick timer is gone; the watchdog timer the
    setup installed is still active. *)
Theorem setup_then_unload (entry : ConfigEntry) (h : Hass) (e : Env) :
  let user := conf_email entry in
  let sid := next_id e in
  let w1 := post (async_setup_entry entry (h, e)) in
  let r := async_unload_entry entry w1 in
  hass_data h !! user = None →
  timers e !! S (S sid) = None →
  unsub_raises e (S (S sid)) = false →
  (∀ b, responses w1.2 (S (ncalls w1.2)) = Returns b →
     out r = Ok b ∧ hass_data (post r).1 = hass_data h)
  ∧ timers (post r).2
    = <[S (S (S sid)) := CbWatchdog (S sid) user (entry_id entry)]> (timers e).
Proof.
  intros user sid w1 r Hnew Hfree Hok. subst user sid.
  destruct (setup_effect entry h e)
    as (_ & Hd & [started Hst] & (s' & Hsys & _ & _ & Hu) & Ht & _ & Hr).
  fold w1 in Hd, Hst, Hsys, Ht, Hr.
  destruct w1 as [h1 e1] eqn:Hw1. simpl in *.
  assert (Hd1 : hass_data h1 !! conf_email entry = Some (S (next_id e)))
    by (rewrite Hd; apply lookup_insert_eq).
  assert (Hst1 : stores h1 !! S (next_id e)
                 = Some (mkStore (Some (next_id e)) (Some (next_id e))
                           (Some (S (S (S (next_id e))))) (Some 0) (Some started)))
    by (rewrite Hst; apply lookup_insert_eq).
  assert (Hs1 : systems h1 !! next_id e = Some s')
    by (rewrite Hsys; apply lookup_insert_eq).
  destruct (unload_effect entry h1 e1 _ _ _ _ Hd1 Hst1 eq_refl Hs1)
    as (_ & Htim & _ & _ & Hret & _).
  fold r in Htim, Hret. split.
  - intros b Hb. destruct (Hret b Hb) as [Ho Hdel]. split; [exact Ho|].
    rewrite Hdel, Hd. apply delete_insert_id. exact Hnew.
  - rewrite Htim, Hu, Hr, Hok, Ht.
    rewrite delete_insert_ne by lia.
    rewrite delete_insert_eq. by rewrite delete_id.
Qed.

(** * Further properties of the watchdog *)

(** The reload reason is always computed: no exception escapes, and the
    registry is left alone. *)
Lemma reload_reason_total (st : Store) (client : nat) (now_ts : Z) (h : Hass)
  (e : Env) :
  ∃ r evs,
    reload_reason st client now_ts (h, e)
    = (Ok r, (h, set_ncalls (S (ncalls e)) e), evs)
    ∧ reload_tasks evs = 0%nat.
Proof.
  unfold reload_reason. unfold_world. simpl.
  destruct (responses e (ncalls e)) as [[]|]; simpl;
    try (do 2 eexists; split; reflexivity).
  unfold _latest_param_ts. unfold_monad.
  destruct (scan_devices (client_data e client) None) as [[[]|ex] [l|]]; simpl;
    repeat match goal with
           | |- context [if ?a >? ?b then _ else _] => destruct (a >? b); simpl
           end; do 2 eexists; split; reflexivity.
Qed.

(** What a watchdog tick does to the world, whatever it finds: it never
    raises; either nothing changes in the registry and the timers, or a
    reload is scheduled, the store records the time and no handle, and the
    recorded handle has been called. *)
Lemma watchdog_tick_effect (loc : nat) (entry : string) (h : Hass) (e : Env)
  (st : Store) :
  stores h !! loc = Some st →
  let r := _tick loc entry (h, e) in
  out r = Ok tt
  ∧ unsub_raises (post r).2 = unsub_raises e
  ∧ ((reload_tasks (emitted r) = 0%nat
      ∧ (post r).1 = h
      ∧ timers (post r).2 = timers e)
     ∨ (reload_tasks (emitted r) = 1%nat
        ∧ (∃ now_ts,
             (post r).1
             = mkHass (systems h)
                 (<[loc := put_watchdog_unsub (put_last_reload_ts st (Some now_ts))
                             None]> (stores h))
                 (hass_data h))
        ∧ timers (post r).2
          = match _watchdog_unsub st with
            | Some u => if unsub_raises e u then timers e else delete u (timers e)
            | None => timers e
            end)).
Proof.
  intros Hst. unfold _tick. unfold_world. simpl. rewrite Hst. simpl.
  destruct (WEB_BOILER_CLIENT st) as [c|]; simpl; [|by repeat split; left].
  destruct (reload_reason_total st c (clock e (nreads e)) h
              (set_nreads (S (nreads e)) e)) as (r & evs & -> & Hevs).
  simpl. destruct r as [r|]; simpl.
  - destruct (_ <? _RELOAD_COOLDOWN_SECONDS); simpl.
    + repeat split. left. unfold reload_tasks in *.
      rewrite List.filter_app, length_app, Hevs. by repeat split.
    + repeat (progress (unfold_world; simpl; rewrite ?Hst, ?lookup_insert_eq,
                          ?insert_insert_eq; simpl)).
      destruct st as [sy cl [u|] lr ws]; simpl.
      * destruct (unsub_raises e u); simpl;
          rewrite ?lookup_insert_eq, ?insert_insert_eq; simpl;
          repeat split; right; unfold reload_tasks in *;
          rewrite List.filter_app, length_app, Hevs; simpl; eauto.
      * rewrite ?lookup_insert_eq, ?insert_insert_eq; simpl.
        repeat split; right; unfold reload_tasks in *;
          rewrite List.filter_app, length_app, Hevs; simpl; eauto.
  - repeat split. left. rewrite app_nil_r. by repeat split.
Qed.

Lemma is_watchdog_of_true (user : string) (cb : callback) :
  is_watchdog_of user cb = true ↔ ∃ l en, cb = CbWatchdog l user en.
Proof.
  destruct cb as [s|l u en]; simpl.
  - split; [discriminate | by intros (? & ? & ?)].
  - rewrite bool_decide_eq_true. split.
    + intros ->. eauto.
    + by intros (? & ? & [= _ -> _]).
Qed.

Lemma active_watchdogs_lookup (user : string) (e : Env) (i : nat) :
  In i (active_watchdogs user e)
  ↔ ∃ l en, timers e !! i = Some (CbWatchdog l user en).
Proof.
  unfold active_watchdogs. rewrite <- list_elem_of_In, list_elem_of_fmap. split.
  - intros ([j cb] & -> & Hin). apply list_elem_of_In, filter_In in Hin.
    destruct Hin as [Hin Hw]. simpl in *.
    apply is_watchdog_of_true in Hw as (l & en & ->). exists l, en.
    by apply elem_of_map_to_list, list_elem_of_In.
  - intros (l & en & Hi). exists (i, CbWatchdog l user en). split; [done|].
    apply list_elem_of_In, filter_In. split.
    + by apply list_elem_of_In, elem_of_map_to_list.
    + apply is_watchdog_of_true. eauto.
Qed.

Lemma active_watchdogs_NoDup (user : string) (e : Env) :
  NoDup (active_watchdogs user e).
Proof. apply NoDup_fst_filter, NoDup_fst_map_to_list. Qed.

Lemma watchdog_inv_at_most_one (user : string) (loc : nat) (w : World) :
  watchdog_inv user loc w → reliable_unsub w.2 →
  (length (active_watchdogs user w.2) ≤ 1)%nat.
Proof.
  intros (_ & st & _ & Hinv) Hrel.
  destruct (_watchdog_unsub st) as [u|] eqn:Hu.
  - apply (NoDup_all_equal _ u); [apply active_watchdogs_NoDup|].
    intros i Hi. apply active_watchdogs_lookup in Hi as (l & en & Hi).
    apply Hinv in Hi as [Hi | Hi]; [congruence|].
    rewrite Hrel in Hi. discriminate.
  - destruct (active_watchdogs user w.2) as [|i l0] eqn:Hl; simpl; [lia|].
    assert (Hi : In i (active_watchdogs user w.2)) by (rewrite Hl; by left).
    apply active_watchdogs_lookup in Hi as (l & en & Hi).
    apply Hinv in Hi as [Hi | Hi]; [congruence|].
    rewrite Hrel in Hi. discriminate.
Qed.

Lemma run_watchdog_op_inv (user : string) (loc : nat) (op : watchdog_op)
  (w : World) :
  watchdog_inv user loc w →
  watchdog_inv user loc (post (run_watchdog_op user loc op w))
  ∧ unsub_raises (post (run_watchdog_op user loc op w)).2 = unsub_raises w.2.
Proof.
  destruct w as [h e]. intros (Hd & st & Hst & Hinv). simpl in *.
  destruct op as [entry|entry]; simpl.
  - destruct (start_or_replace_full entry user h e loc st Hd Hst)
      as (_ & Hp & Ht & _ & Hr & _).
    split; [|exact Hr]. unfold watchdog_inv. rewrite Hp, Ht, Hr. simpl.
    split; [exact Hd|]. eexists. split; [apply lookup_insert_eq|]. simpl.
    intros i l en Hi.
    destruct (decide (i = next_id e)) as [->|Hne]; [by left|]. right.
    rewrite lookup_insert_ne in Hi by done.
    destruct (_watchdog_unsub st) as [u|] eqn:Hu.
    + destruct (unsub_raises e u) eqn:Hru.
      * destruct (Hinv i l en Hi) as [[= ->]|?]; done.
      * destruct (decide (i = u)) as [->|Hne'].
        -- rewrite lookup_delete_eq in Hi. discriminate.
        -- rewrite lookup_delete_ne in Hi by done.
           destruct (Hinv i l en Hi) as [[= ->]|?]; done.
    + destruct (Hinv i l en Hi) as [?|?]; done.
  - destruct (watchdog_tick_effect loc entry h e st Hst) as (_ & Hr & Hcase).
    split; [|exact Hr]. unfold watchdog_inv. rewrite Hr.
    destruct Hcase as [(_ & -> & ->) | (_ & [now_ts ->] & ->)]; simpl.
    + split; [exact Hd|]. exists st. split; [exact Hst | exact Hinv].
    + split; [exact Hd|]. eexists. split; [apply lookup_insert_eq|]. simpl.
      intros i l en Hi. right.
      destruct (_watchdog_unsub st) as [u|] eqn:Hu.
      * destruct (unsub_raises e u) eqn:Hru.
        -- destruct (Hinv i l en Hi) as [[= ->]|?]; done.
        -- destruct (decide (i = u)) as [->|Hne'].
           ++ rewrite lookup_delete_eq in Hi. discriminate.
           ++ rewrite lookup_delete_ne in Hi by done.
              destruct (Hinv i l en Hi) as [[= ->]|?]; done.
      * destruct (Hinv i l en Hi) as [?|?]; done.
Qed.

Lemma run_watchdog_ops_inv (user : string) (loc : nat) (ops : list watchdog_op)
  (w : World) :
  watchdog_inv user loc w →
  watchdog_inv user loc (run_watchdog_ops user loc ops w)
  ∧ unsub_raises (run_watchdog_ops user loc ops w).2 = unsub_raises w.2.
Proof.
  revert w. induction ops as [|op ops IH]; intros w Hinv; simpl; [done|].
  destruct (run_watchdog_op_inv user loc op w Hinv) as [Hinv' Hr].
  destruct (IH _ Hinv') as [Hinv'' Hr']. split; [done | congruence].
Qed.

(** X11. As long as the account's store stays in the registry, the account has
    at most one active watchdog: through any sequence of watchdog starts
    and watchdog ticks on that store, every active watchdog timer of the
    account is the one the store records or one whose cancel handle raised;
    with cancel handles that work there is never more than one. *)
Theorem one_watchdog_on_a_kept_store (user : string) (loc : nat)
  (ops : list watchdog_op) (w : World) :
  watchdog_inv user loc w →
  let w' := run_watchdog_ops user loc ops w in
  watchdog_inv user loc w'
  ∧ (reliable_unsub w.2 → (length (active_watchdogs user w'.2) ≤ 1)%nat).
Proof.
  intros Hinv w'.
  destruct (run_watchdog_ops_inv user loc ops w Hinv) as [Hinv' Hr].
  split; [exact Hinv'|]. intros Hrel.
  apply (watchdog_inv_at_most_one user loc); [exact Hinv'|].
  intros i. fold w' in Hr. rewrite Hr. apply Hrel.
Qed.

(** X12. Starting a watchdog for an account whose store records one: the
    recorded handle is called before the new timer is installed, the store
    then records the new handle and the time of the start, its cooldown
    record is kept (0 when it had none), and nothing else in the registry
    changes. *)
Theorem watchdog_replaced_on_kept_store (entry : ConfigEntry) (user : string)
  (h : Hass) (e : Env) (loc : nat) (st : Store) :
  hass_data h !! user = Some loc →
  stores h !! loc = Some st →
  let r := _start_or_replace_watchdog entry user (h, e) in
  let cb := CbWatchdog loc user (entry_id entry) in
  out r = Ok tt
  ∧ emitted r
    = match _watchdog_unsub st with
      | Some u => [EvUnsub u; EvTrack (next_id e) cb]
      | None => [EvTrack (next_id e) cb]
      end
  ∧ (post r).1
    = mkHass (systems h)
        (<[loc := mkStore (WEB_BOILER_SYSTEM st) (WEB_BOILER_CLIENT st)
                    (Some (next_id e)) (Some (default 0 (_last_reload_ts st)))
                    (Some (clock e (nreads e)))]> (stores h))
        (hass_data h)
  ∧ timers (post r).2
    = <[next_id e := cb]>
        match _watchdog_unsub st with
        | Some u => if unsub_raises e u then timers e else delete u (timers e)
        | None => timers e
        end.
Proof.
  intros Hd Hst.
  destruct (start_or_replace_full entry user h e loc st Hd Hst)
    as (? & ? & ? & _ & _ & ?).
  repeat split; assumption.
Qed.

(** X13. A watchdog tick schedules at most one reload, and exactly one when it
    has a reason and at least the cooldown has passed since the reload time
    its store records (0 when it records none): at exactly 900 seconds the
    reload is scheduled.  Without a reason, or within the cooldown, the
    registry and the timers are left as they are. *)
Theorem watchdog_reload_decision (loc : nat) (entry : string) (h : Hass)
  (e : Env) (st : Store) (c : nat) :
  stores h !! loc = Some st →
  WEB_BOILER_CLIENT st = Some c →
  let now_ts := clock e (nreads e) in
  let reason :=
    out (reload_reason st c now_ts (h, set_nreads (S (nreads e)) e)) in
  let last_reload := default 0 (_last_reload_ts st) in
  let r := _tick loc entry (h, e) in
  (reload_tasks (emitted r) = 1%nat ↔
   (∃ why, reason = Ok (Some why))
   ∧ _RELOAD_COOLDOWN_SECONDS ≤ now_ts - last_reload)
  ∧ (reload_tasks (emitted r) = 0%nat ∨ reload_tasks (emitted r) = 1%nat)
  ∧ (reload_tasks (emitted r) = 0%nat →
     (post r).1 = h ∧ timers (post r).2 = timers e).
Proof.
  intros Hst Hc now_ts reason last_reload r.
  destruct (reload_reason_total st c now_ts h (set_nreads (S (nreads e)) e))
    as (why & evs & Hrr & Hevs).
  assert (Hreason : reason = Ok why) by (subst reason; by rewrite Hrr).
  destruct (watchdog_tick_effect loc entry h e st Hst) as (_ & _ & Hcase).
  fold r in Hcase.
  destruct why as [why|].
  - destruct (watchdog_tick_decision loc entry h e st c why evs Hst Hc Hrr)
      as [Hcool Hfire].
    fold now_ts last_reload r in Hcool, Hfire.
    destruct (Z_lt_le_dec (now_ts - last_reload) _RELOAD_COOLDOWN_SECONDS)
      as [Hlt | Hge].
    + assert (H0 : reload_tasks (emitted r) = 0%nat).
      { rewrite (Hcool Hlt). unfold emitted, reload_tasks in *. simpl.
        rewrite List.filter_app, length_app, Hevs. reflexivity. }
      split; [|split].
      * rewrite H0. split; [discriminate | intros [_ ?]; lia].
      * by left.
      * intros _. rewrite (Hcool Hlt). done.
    + destruct (Hfire Hge) as (_ & He & _).
      assert (H1 : reload_tasks (emitted r) = 1%nat).
      { rewrite He. unfold reload_tasks in *.
        rewrite !List.filter_app, !length_app, Hevs. simpl.
        destruct (_watchdog_unsub st); reflexivity. }
      split; [|split].
      * rewrite H1. split; [|done]. intros _. split; [|done].
        exists why. exact Hreason.
      * by right.
      * rewrite H1. discriminate.
  - assert (H0 : reload_tasks (emitted r) = 0%nat).
    { destruct Hcase as [(? & _) | (H1 & _)]; [done|].
      exfalso. subst r. unfold _tick in H1. unfold_world. simpl in H1.
      rewrite Hst in H1. simpl in H1. rewrite Hc in H1. simpl in H1.
      fold now_ts in H1. rewrite Hrr in H1. simpl in H1.
      rewrite app_nil_r in H1. congruence. }
    split; [|split].
    + rewrite H0. split; [discriminate|].
      intros [[? Hx] _]. rewrite Hreason in Hx. discriminate.
    + by left.
    + intros _. destruct Hcase as [(_ & ? & ?) | (H1 & _)]; [done | congruence].
Qed.

(** X14. The staleness threshold is strict.  For a connected client none of
    whose timestamps makes [int()] raise anything but [ValueError] or
    [TypeError], and whose parameters have largest timestamp [T], the
    reason is "stale data", with the age [now_ts - T], exactly when the age
    exceeds [_STALE_SECONDS]; at an age of exactly [_STALE_SECONDS], or with
    [T] in the future, there is no reason, however long the watchdog has
    been running. *)
Theorem stale_exactly_beyond_threshold (st : Store) (client : nat) (T now_ts : Z)
  (h : Hass) (e : Env) :
  responses e (ncalls e) = Returns true →
  existsb uncaught (all_parameters (client_data e client)) = false →
  is_max_of (convertible (all_parameters (client_data e client))) (Some T) →
  let r := out (reload_reason st client now_ts (h, e)) in
  (now_ts - T > _STALE_SECONDS → r = Ok (Some (StaleData (now_ts - T))))
  ∧ (now_ts - T ≤ _STALE_SECONDS → r = Ok None).
Proof.
  intros Hc Hclean Hmax r. subst r.
  rewrite (reload_reason_clean_scan st client T now_ts h e Hc Hclean Hmax).
  split; intros Hage.
  - replace (now_ts - T >? _STALE_SECONDS) with true
      by (symmetry; apply Z.gtb_lt; lia). reflexivity.
  - replace (now_ts - T >? _STALE_SECONDS) with false
      by (symmetry; rewrite Z.gtb_ltb; apply Z.ltb_ge; lia). reflexivity.
Qed.

(** ** [_latest_param_ts] and the order of the scan *)


Lemma existsb_false_Permutation {A} (f : A → bool) (l l' : list A) :
  l ≡ₚ l' → existsb f l = false → existsb f l' = false.
Proof.
  intros Hp Hl. destruct (existsb f l') eqn:Hl'; [|done].
  apply existsb_exists in Hl' as (x & Hx & Hf).
  assert (existsb f l = true); [|congruence].
  apply existsb_exists. exists x. split; [|done].
  apply list_elem_of_In. rewrite Hp. by apply list_elem_of_In.
Qed.

(** X15. The scan does not depend on the order of devices and parameters as long
    as no conversion raises anything but [ValueError] or [TypeError]: two
    collections with the same parameters in any order give the same latest
    timestamp. *)
Theorem latest_order_independent (data data' : device_collection) :
  all_parameters data ≡ₚ all_parameters data' →
  existsb uncaught (all_parameters data) = false →
  latest_of data = latest_of data'.
Proof.
  intros Hp Hclean.
  pose proof (existsb_false_Permutation _ _ _ Hp Hclean) as Hclean'.
  pose proof (latest_of_max data) as H. pose proof (latest_of_max data') as H'.
  rewrite (scanned_all _ Hclean) in H. rewrite (scanned_all _ Hclean') in H'.
  eapply is_max_of_unique; [|exact H|exact H'].
  unfold convertible. by rewrite Hp.
Qed.

(** * The de-duplication pass *)

Lemma dedupe_fold (l : list entity) (acc : list entity) (seen : gset string) :
  (fold_left dedupe_step l (acc, seen)).1 = acc ++ dedupe_from seen l.
Proof.
  revert acc seen. induction l as [|en l IH]; intros acc seen; simpl.
  - by rewrite app_nil_r.
  - destruct (unique_id en) as [uid|]; [destruct (decide (uid ∈ seen))|];
      rewrite IH; try done; by rewrite <- app_assoc.
Qed.

Lemma dedupe_dedupe_from (l : list entity) : dedupe l = dedupe_from ∅ l.
Proof. unfold dedupe. by rewrite dedupe_fold. Qed.

Lemma dedupe_from_sublist (seen : gset string) (l : list entity) :
  dedupe_from seen l `sublist_of` l.
Proof.
  revert seen. induction l as [|en l IH]; intros seen; simpl; [done|].
  destruct (unique_id en) as [uid|]; [destruct (decide (uid ∈ seen))|].
  - by apply sublist_cons.
  - by apply sublist_skip.
  - by apply sublist_skip.
Qed.

Lemma dedupe_from_uids (seen : gset string) (l : list entity) :
  NoDup (omap unique_id (dedupe_from seen l))
  ∧ ∀ uid, uid ∈ omap unique_id (dedupe_from seen l) → uid ∉ seen.
Proof.
  revert seen. induction l as [|en l IH]; intros seen; simpl.
  - split; [constructor | intros ? H; by apply elem_of_nil in H].
  - destruct (unique_id en) as [uid|] eqn:Hu; [destruct (decide (uid ∈ seen))|].
    + apply IH.
    + simpl. rewrite Hu. destruct (IH ({[uid]} ∪ seen)) as [Hnd Hout]. split.
      * constructor; [|done]. intros Hin. apply Hout in Hin.
        apply Hin, elem_of_union. left. by apply elem_of_singleton.
      * intros uid' [->|Hin]%elem_of_cons; [done|].
        apply Hout in Hin. intros Hs. apply Hin, elem_of_union. by right.
    + simpl. rewrite Hu. apply IH.
Qed.

Lemma dedupe_from_no_uid (seen : gset string) (l : list entity) :
  List.filter (λ en, bool_decide (unique_id en = None)) (dedupe_from seen l)
  = List.filter (λ en, bool_decide (unique_id en = None)) l.
Proof.
  revert seen. induction l as [|en l IH]; intros seen; simpl; [done|].
  destruct (unique_id en) as [uid|] eqn:Hu; [destruct (decide (uid ∈ seen))|];
    simpl; rewrite ?Hu; simpl; rewrite IH; done.
Qed.

(** X16. The pass keeps the order of the entities, hands over no two entities
    with the same unique id, and keeps every entity that has none. *)
Theorem dedupe_no_duplicates (all_entities : list entity) :
  dedupe all_entities `sublist_of` all_entities
  ∧ NoDup (omap unique_id (dedupe all_entities))
  ∧ List.filter (λ en, bool_decide (unique_id en = None)) (dedupe all_entities)
    = List.filter (λ en, bool_decide (unique_id en = None)) all_entities.
Proof.
  rewrite dedupe_dedupe_from. split; [apply dedupe_from_sublist|].
  split; [apply dedupe_from_uids | apply dedupe_from_no_uid].
Qed.

Lemma find_dedupe_from (uid : string) (seen : gset string) (l : list entity) :
  uid ∉ seen →
  List.find (has_uid uid) (dedupe_from seen l) = List.find (has_uid uid) l.
Proof.
  revert seen. induction l as [|en l IH]; intros seen Hout; simpl; [done|].
  unfold has_uid at 2.
  destruct (unique_id en) as [u|] eqn:Hu.
  - destruct (decide (u ∈ seen)) as [Hin|Hnin].
    + rewrite bool_decide_eq_false_2 by (intros [= ->]; done). by apply IH.
    + simpl. unfold has_uid at 1. rewrite Hu.
      destruct (decide (u = uid)) as [->|Hne].
      * by rewrite !bool_decide_eq_true_2.
      * rewrite !bool_decide_eq_false_2 by congruence.
        apply IH. apply not_elem_of_union. split; [|done].
        by apply not_elem_of_singleton.
  - simpl. unfold has_uid at 1. rewrite Hu.
    rewrite !bool_decide_eq_false_2 by done. by apply IH.
Qed.

(** X17. Of the entities that share a unique id the pass keeps the first: for
    every id, the first entity with that id among those handed over is the
    first one with it in the input (and there is one exactly when the input
    has one). *)
Theorem dedupe_keeps_first (all_entities : list entity) (uid : string) :
  List.find (has_uid uid) (dedupe all_entities)
  = List.find (has_uid uid) all_entities.
Proof.
  rewrite dedupe_dedupe_from. apply find_dedupe_from. apply not_elem_of_empty.
Qed.

Lemma dedupe_from_unique (seen : gset string) (l : list entity) :
  NoDup (omap unique_id l) →
  (∀ uid, uid ∈ omap unique_id l → uid ∉ seen) →
  dedupe_from seen l = l.
Proof.
  revert seen. induction l as [|en l IH]; intros seen Hnd Hout; simpl; [done|].
  simpl in Hnd, Hout. destruct (unique_id en) as [uid|] eqn:Hu.
  - apply NoDup_cons in Hnd as [Hnin Hnd].
    rewrite decide_False by (apply Hout; left).
    f_equal. apply IH; [done|].
    intros u Hin. apply not_elem_of_union. split.
    + intros ->%elem_of_singleton. done.
    + apply Hout. by right.
  - f_equal. by apply IH.
Qed.

(** X18. Entities whose unique ids are all different pass unchanged; so running
    the pass on its own result changes nothing. *)
Theorem dedupe_unique_unchanged (all_entities : list entity) :
  (NoDup (omap unique_id all_entities) → dedupe all_entities = all_entities)
  ∧ dedupe (dedupe all_entities) = dedupe all_entities.
Proof.
  assert (H : ∀ l, NoDup (omap unique_id l) → dedupe l = l).
  { intros l Hnd. rewrite dedupe_dedupe_from. apply dedupe_from_unique; [done|].
    intros uid _. apply not_elem_of_empty. }
  split; [apply H|]. apply H.
  rewrite dedupe_dedupe_from. apply dedupe_from_uids.
Qed.

(** * The entity factories *)

Lemma get_used_true (d : boiler) (k : string) :
  get_used d k = true ↔ used d !! k = Some true.
Proof.
  unfold get_used. destruct (used d !! k) as [[]|]; simpl; split; congruence.
Qed.

Lemma has_parameter_true (d : boiler) (k : string) :
  _device_has_parameter d k = true ↔ is_Some (used d !! k).
Proof. unfold _device_has_parameter. apply bool_decide_eq_true. Qed.

Lemma set_used_lookup (p : string) (d : boiler) (k : string) :
  used (set_used p d) !! k = if decide (p = k) then Some true else used d !! k.
Proof.
  unfold set_used; simpl. destruct (decide (p = k)) as [->|Hne].
  - by rewrite lookup_insert_eq.
  - by rewrite lookup_insert_ne.
Qed.

Lemma extends_refl (d : boiler) : extends d d.
Proof. by repeat split. Qed.

Lemma extends_trans (d d' d'' : boiler) :
  extends d d' → extends d' d'' → extends d d''.
Proof.
  intros (Hs & Ht & Hd & Hu) (Hs' & Ht' & Hd' & Hu').
  split; [congruence|]. split; [congruence|]. split.
  - intros k. by rewrite Hd', Hd.
  - intros k Hk. by apply Hu', Hu.
Qed.

Lemma extends_set_used (p : string) (d : boiler) :
  is_Some (used d !! p) → extends d (set_used p d).
Proof.
  intros Hp. split; [done|]. split; [done|]. split.
  - intros k. rewrite set_used_lookup. destruct (decide (p = k)) as [<-|]; [|done].
    split; [done | by eexists].
  - intros k Hk. rewrite set_used_lookup. by destruct (decide (p = k)).
Qed.

Lemma extends_unused (d d' : boiler) (k : string) :
  extends d d' → get_used d' k = false → get_used d k = false.
Proof.
  intros (_ & _ & _ & Hu) Hk. destruct (get_used d k) eqn:E; [|done].
  apply get_used_true, Hu, get_used_true in E. congruence.
Qed.

Lemma extends_settled (d d' : boiler) (k : string) :
  extends d d' → settled d k → settled d' k.
Proof.
  intros (_ & _ & Hd & Hu) [Habs|Hused].
  - left. apply not_true_is_false. rewrite has_parameter_true, Hd.
    rewrite <- has_parameter_true. congruence.
  - right. by apply get_used_true, Hu, get_used_true.
Qed.

Lemma claiming_nil (cls : sensor_class) (keys : list string) (d : boiler) :
  claiming cls keys d [] d.
Proof.
  split; [apply extends_refl|]. split; [constructor|].
  intros e He. by apply elem_of_nil in He.
Qed.

Lemma claiming_app (cls : sensor_class) (keys : list string)
    (d d' d'' : boiler) (es es' : list entity) :
  claiming cls keys d es d' → claiming cls keys d' es' d'' →
  claiming cls keys d (es ++ es') d''.
Proof.
  intros (Hx & Hnd & Hes) (Hx' & Hnd' & Hes').
  split; [by eapply extends_trans|]. split.
  - rewrite map_app. apply NoDup_app. split; [done|]. split; [|done].
    intros p (e & -> & He)%list_elem_of_fmap (e' & Hp & He')%list_elem_of_fmap.
    destruct (Hes e He) as (_ & _ & _ & _ & _ & Hu).
    destruct (Hes' e' He') as (_ & _ & _ & _ & Hn & _).
    rewrite <- Hp in Hn. apply get_used_true in Hu. congruence.
  - intros e [He|He]%elem_of_app.
    + destruct (Hes e He) as (? & ? & ? & ? & ? & Hu).
      repeat (split; [done|]). by apply Hx'.
    + destruct (Hes' e He) as (? & Hid & ? & Hp & Hn & ?).
      pose proof Hx as (Hs & _ & Hd & _).
      split; [done|]. split; [by rewrite <- Hs|]. split; [done|].
      split; [by apply Hd|]. split; [|done].
      by eapply extends_unused.
Qed.

Lemma claiming_weaken (cls : sensor_class) (keys keys' : list string)
    (d d' : boiler) (es : list entity) :
  (∀ k, k ∈ keys → k ∈ keys') →
  claiming cls keys d es d' → claiming cls keys' d es d'.
Proof.
  intros Hsub (Hx & Hnd & Hes). split; [done|]. split; [done|].
  intros e He. destruct (Hes e He) as (? & ? & ? & ? & ? & ?).
  repeat (split; [done|]). repeat split; auto.
Qed.

Lemma claiming_one (cls : sensor_class) (d : boiler) (descr p : string) :
  is_Some (used d !! p) → get_used d p = false →
  claiming cls [p] d [new_entity cls d descr p] (set_used p d).
Proof.
  intros Hp Hn. split; [by apply extends_set_used|]. split.
  - simpl. apply NoDup_singleton.
  - intros e ->%list_elem_of_singleton. simpl.
    repeat (split; [done|]). split; [apply list_elem_of_singleton; done|].
    repeat (split; [done|]). apply lookup_insert_eq.
Qed.

Lemma create_from_claiming (cls : sensor_class) (skip : list string)
    (items : list (string * string)) (d : boiler) :
  claiming cls
    (List.filter (λ k, negb (bool_decide (k ∈ skip))) (map fst items))
    d (create_from cls skip items d).1 (create_from cls skip items d).2.
Proof.
  revert d. induction items as [|[p descr] items IH]; intros d; simpl.
  - apply claiming_nil.
  - destruct (bool_decide (p ∈ skip)) eqn:Hskip; simpl; [apply IH|].
    assert (Hw : ∀ es d1 d2,
      claiming cls (List.filter (λ k, negb (bool_decide (k ∈ skip))) (map fst items))
               d1 es d2 →
      claiming cls (p :: List.filter (λ k, negb (bool_decide (k ∈ skip))) (map fst items))
               d1 es d2).
    { intros es d1 d2. apply claiming_weaken. intros k Hk. by right. }
    destruct (_device_has_parameter d p) eqn:Hhas; simpl; [|apply Hw, IH].
    destruct (get_used d p) eqn:Hused; [apply Hw, IH|].
    specialize (IH (set_used p d)).
    destruct (create_from cls skip items (set_used p d)) as [es d'] eqn:E.
    simpl in *.
    change (new_entity cls d descr p :: es) with ([new_entity cls d descr p] ++ es).
    eapply claiming_app; [|apply Hw, IH].
    eapply claiming_weaken; [|apply claiming_one; [by apply has_parameter_true|done]].
    intros k ->%list_elem_of_singleton. by left.
Qed.

Lemma create_from_settles (cls : sensor_class) (skip : list string)
    (items : list (string * string)) (d : boiler) (k : string) :
  k ∈ map fst items →
  k ∈ skip ∨ settled (create_from cls skip items d).2 k.
Proof.
  revert d. induction items as [|[p descr] items IH]; intros d Hk; simpl in *.
  - by apply elem_of_nil in Hk.
  - apply elem_of_cons in Hk as [->|Hk].
    + destruct (bool_decide (p ∈ skip)) eqn:Hskip; simpl.
      { left. by apply bool_decide_eq_true in Hskip. }
      right.
      destruct (_device_has_parameter d p) eqn:Hhas; simpl.
      * destruct (get_used d p) eqn:Hused.
        -- eapply extends_settled; [apply create_from_claiming | by right].
        -- pose proof (create_from_claiming cls skip items (set_used p d)) as Hc.
           destruct (create_from cls skip items (set_used p d)) as [es d'].
           simpl in *. eapply extends_settled; [apply Hc|].
           right. apply get_used_true. rewrite set_used_lookup.
           by rewrite decide_True.
      * eapply extends_settled; [apply create_from_claiming | by left].
    + destruct (bool_decide (p ∈ skip)); simpl; [by apply IH|].
      destruct (_device_has_parameter d p); simpl; [|by apply IH].
      destruct (get_used d p); [by apply IH|].
      specialize (IH (set_used p d) Hk).
      by destruct (create_from cls skip items (set_used p d)).
Qed.

Lemma create_from_done (cls : sensor_class) (skip : list string)
    (items : list (string * string)) (d : boiler) :
  (∀ k, k ∈ map fst items → k ∈ skip ∨ settled d k) →
  create_from cls skip items d = ([], d).
Proof.
  induction items as [|[p descr] items IH]; intros Hall; simpl; [done|].
  assert (IH' : create_from cls skip items d = ([], d)).
  { apply IH. intros k Hk. apply Hall. simpl. by right. }
  destruct (bool_decide (p ∈ skip)) eqn:Hskip; [done|].
  destruct (Hall p) as [Hin|[Habs|Hused]]; [simpl; by left| | |].
  - apply bool_decide_eq_false in Hskip. done.
  - by rewrite Habs.
  - rewrite Hused. by destruct (_device_has_parameter d p).
Qed.

Lemma create_from_again (cls : sensor_class) (skip : list string)
    (items : list (string * string)) (d : boiler) :
  create_from cls skip items (create_from cls skip items d).2
  = ([], (create_from cls skip items d).2).
Proof. apply create_from_done. intros k Hk. by apply create_from_settles. Qed.

Lemma elem_of_List_filter {A} (f : A → bool) (l : list A) (x : A) :
  x ∈ List.filter f l ↔ x ∈ l ∧ f x = true.
Proof. rewrite !list_elem_of_In. apply filter_In. Qed.

Lemma device_has_prefix_true (d : boiler) (pf : string) :
  device_has_prefix d pf = true
  ↔ ∃ k, is_Some (used d !! k) ∧ String.prefix pf k = true.
Proof.
  unfold device_has_prefix. rewrite existsb_exists. split.
  - intros (k & Hin & Hp). exists k. split; [|done].
    apply list_elem_of_In, list_elem_of_fmap in Hin as ([k' v] & -> & Hkv).
    apply elem_of_map_to_list in Hkv. by eexists.
  - intros (k & [v Hv] & Hp). exists k. split; [|done].
    apply list_elem_of_In, list_elem_of_fmap. exists (k, v). split; [done|].
    by apply elem_of_map_to_list.
Qed.

Lemma device_has_prefix_extends (d d' : boiler) (pf : string) :
  extends d d' → device_has_prefix d' pf = device_has_prefix d pf.
Proof.
  intros (_ & _ & Hd & _). apply eq_true_iff_eq.
  rewrite !device_has_prefix_true. by setoid_rewrite Hd.
Qed.

Lemma create_circuits_claiming (cs : list (string * string)) (d : boiler) :
  claiming GenericSensor (flat_map (λ c, map fst (circuit_items c.1 c.2)) cs)
    d (create_circuits cs d).1 (create_circuits cs d).2.
Proof.
  revert d. induction cs as [|[pf nm] cs IH]; intros d;
    cbn [create_circuits flat_map fst snd].
  - apply claiming_nil.
  - destruct (device_has_prefix d pf).
    + pose proof (create_from_claiming GenericSensor [] (circuit_items pf nm) d) as H1.
      unfold create_heating_circuit_entities.
      destruct (create_from GenericSensor [] (circuit_items pf nm) d) as [es d'].
      specialize (IH d'). destruct (create_circuits cs d') as [es' d''].
      cbn [fst snd] in *.
      eapply claiming_app; (eapply claiming_weaken; [|eassumption]).
      * intros k [Hk _]%elem_of_List_filter. apply elem_of_app. by left.
      * intros k Hk. apply elem_of_app. by right.
    + eapply claiming_weaken; [|apply IH].
      intros k Hk. apply elem_of_app. by right.
Qed.

Lemma create_circuits_settles (cs : list (string * string)) (d : boiler)
    (pf nm k : string) :
  (pf, nm) ∈ cs → device_has_prefix d pf = true →
  k ∈ map fst (circuit_items pf nm) →
  settled (create_circuits cs d).2 k.
Proof.
  revert d. induction cs as [|[pf0 nm0] cs IH]; intros d Hin Hpf Hk;
    cbn [create_circuits].
  - by apply elem_of_nil in Hin.
  - apply elem_of_cons in Hin as [[= <- <-]|Hin].
    + rewrite Hpf. unfold create_heating_circuit_entities.
      pose proof (create_from_settles GenericSensor [] (circuit_items pf nm) d k Hk)
        as [Hno|Hs]; [by apply elem_of_nil in Hno|].
      destruct (create_from GenericSensor [] (circuit_items pf nm) d) as [es d'].
      pose proof (create_circuits_claiming cs d') as [Hx _].
      destruct (create_circuits cs d') as [es' d'']. cbn [fst snd] in *.
      by eapply extends_settled.
    + destruct (device_has_prefix d pf0); [|by apply IH].
      unfold create_heating_circuit_entities.
      pose proof (create_from_claiming GenericSensor [] (circuit_items pf0 nm0) d)
        as [Hx _].
      destruct (create_from GenericSensor [] (circuit_items pf0 nm0) d) as [es d'].
      cbn [fst snd] in *.
      specialize (IH d' Hin). rewrite (device_has_prefix_extends _ _ _ Hx) in IH.
      specialize (IH Hpf Hk). by destruct (create_circuits cs d').
Qed.

Lemma create_circuits_done (cs : list (string * string)) (d : boiler) :
  (∀ pf nm k, (pf, nm) ∈ cs → device_has_prefix d pf = true →
              k ∈ map fst (circuit_items pf nm) → settled d k) →
  create_circuits cs d = ([], d).
Proof.
  induction cs as [|[pf nm] cs IH]; intros Hall; cbn [create_circuits]; [done|].
  assert (IH' : create_circuits cs d = ([], d)).
  { apply IH. intros pf' nm' k Hin. apply Hall. by right. }
  destruct (device_has_prefix d pf) eqn:Hpf; [|done].
  unfold create_heating_circuit_entities. rewrite create_from_done.
  - by rewrite IH'.
  - intros k Hk. right. eapply Hall; [by left|done|done].
Qed.

Lemma fire_grid_spec (d : boiler) :
  extends d (WebBoilerFireGridSensor_create_entities d).2
  ∧ (WebBoilerFireGridSensor_create_entities d = ([], d)
     ∨ (WebBoilerFireGridSensor_create_entities d).1
         = [new_entity FireGridSensor d "Fire Grid Position" "B_resInd"]
       ∧ ¬ (used d !! "B_resInd" = Some true ∧ used d !! "B_resDir" = Some true
            ∧ used d !! "B_resMax" = Some true)
       ∧ used (WebBoilerFireGridSensor_create_entities d).2 !! "B_resInd" = Some true
       ∧ used (WebBoilerFireGridSensor_create_entities d).2 !! "B_resDir" = Some true
       ∧ used (WebBoilerFireGridSensor_create_entities d).2 !! "B_resMax" = Some true).
Proof.
  unfold WebBoilerFireGridSensor_create_entities. cbn [forallb].
  destruct (_device_has_parameter d "B_resInd") eqn:H1; cbn [andb negb];
    [|split; [apply extends_refl | by left]].
  destruct (_device_has_parameter d "B_resDir") eqn:H2; cbn [andb negb];
    [|split; [apply extends_refl | by left]].
  destruct (_device_has_parameter d "B_resMax") eqn:H3; cbn [andb negb];
    [|split; [apply extends_refl | by left]].
  apply has_parameter_true in H1, H2, H3.
  destruct (get_used d "B_resInd" && get_used d "B_resDir" && get_used d "B_resMax")
    eqn:Hall; [split; [apply extends_refl | by left]|].
  cbn [fst snd]. split.
  - apply (extends_trans _ (set_used "B_resInd" d)); [by apply extends_set_used|].
    apply (extends_trans _ (set_used "B_resDir" (set_used "B_resInd" d)));
      apply extends_set_used; rewrite ?set_used_lookup;
      repeat case_decide; done.
  - right. split; [done|]. split.
    + intros (U1 & U2 & U3). apply get_used_true in U1, U2, U3.
      by rewrite U1, U2, U3 in Hall.
    + rewrite !set_used_lookup. repeat case_decide; done.
Qed.

Lemma run_factory_claiming (f : factory) (d : boiler) :
  f ≠ DeviceType → f ≠ FireGrid →
  claiming (class_of f) (keys_of f) d (run_factory f d).1 (run_factory f d).2.
Proof.
  intros H1 H2. destruct f; try done; cbn [run_factory class_of keys_of].
  - eapply claiming_weaken; [|apply create_from_claiming].
    by intros k [Hk _]%elem_of_List_filter.
  - apply create_from_claiming.
  - unfold WebBoilerConfigurationSensor_create_entities.
    destruct (_device_has_parameter d "B_KONF") eqn:Hh; [|apply claiming_nil].
    destruct (get_used d "B_KONF") eqn:Hu; cbn [negb fst snd]; [apply claiming_nil|].
    apply claiming_one; [by apply has_parameter_true|done].
  - apply create_circuits_claiming.
  - unfold create_conf_entities. destruct (String.eqb (type d) "peltec2").
    + apply create_from_claiming.
    + apply claiming_nil.
  - apply claiming_nil.
Qed.

Lemma run_factory_extends (f : factory) (d : boiler) :
  extends d (run_factory f d).2.
Proof.
  destruct (decide (f = DeviceType)) as [->|H1]; [apply extends_refl|].
  destruct (decide (f = FireGrid)) as [->|H2]; [apply fire_grid_spec|].
  by apply run_factory_claiming.
Qed.

Lemma run_factory_origin (f : factory) (d : boiler) (e : entity) :
  e ∈ (run_factory f d).1 →
  entity_class e = class_of f ∧ _param_name e ∈ keys_of f.
Proof.
  intros He.
  destruct (decide (f = DeviceType)) as [->|H1].
  { apply list_elem_of_singleton in He as ->. split; [done|]. by left. }
  destruct (decide (f = FireGrid)) as [->|H2].
  { destruct (fire_grid_spec d) as [_ [Hno|(Hone & _)]]; cbn [run_factory] in He.
    - rewrite Hno in He. by apply elem_of_nil in He.
    - rewrite Hone in He. apply list_elem_of_singleton in He as ->.
      split; [done|]. by left. }
  destruct (run_factory_claiming f d H1 H2) as (_ & _ & Hes).
  destruct (Hes e He) as (? & _ & ? & _). done.
Qed.

Lemma run_factories_app (fs : list factory) (d : boiler) (e : entity) :
  e ∈ (run_factories fs d).1 →
  ∃ f d', f ∈ fs ∧ e ∈ (run_factory f d').1.
Proof.
  revert d. induction fs as [|f fs IH]; intros d He; cbn [run_factories] in He.
  - by apply elem_of_nil in He.
  - destruct (run_factory f d) as [new d'] eqn:E.
    specialize (IH d'). destruct (run_factories fs d') as [rest d''].
    cbn [fst] in *. apply elem_of_app in He as [He|He].
    + exists f, d. split; [by left|]. by rewrite E.
    + destruct (IH He) as (f' & d0 & Hf & He'). exists f', d0. split; [by right|done].
Qed.

Lemma keys_of_checked (check : factory → string → bool) :
  forallb (λ f, forallb (check f) (keys_of f))
    [BinaryState; Common; Configuration; DeviceType; HeatingCircuits;
     FireGrid; Conf; Unknown] = true →
  ∀ f k, k ∈ keys_of f → check f k = true.
Proof.
  intros Hall f k Hk.
  rewrite forallb_forall in Hall.
  assert (Hf : forallb (check f) (keys_of f) = true).
  { apply Hall. destruct f; simpl; tauto. }
  rewrite forallb_forall in Hf. by apply Hf, list_elem_of_In.
Qed.

Lemma keys_of_device_type (f : factory) :
  f ≠ DeviceType → "Device_Type" ∉ keys_of f.
Proof.
  intros Hf Hin.
  apply (keys_of_checked
    (λ f k, bool_decide (f = DeviceType) || negb (String.eqb k "Device_Type")))
    in Hin; [|by vm_compute].
  rewrite bool_decide_eq_false_2 in Hin by done. by vm_compute in Hin.
Qed.

Lemma keys_of_fire_grid (f : factory) :
  f ≠ FireGrid → "B_resInd" ∉ keys_of f.
Proof.
  intros Hf Hin.
  apply (keys_of_checked
    (λ f k, bool_decide (f = FireGrid) || negb (String.eqb k "B_resInd")))
    in Hin; [|by vm_compute].
  rewrite bool_decide_eq_false_2 in Hin by done. by vm_compute in Hin.
Qed.

Lemma append_inj_r (s a b : string) : s +:+ a = s +:+ b → a = b.
Proof. induction s as [|c s IH]; simpl; [done|]. intros [= H]. by apply IH. Qed.

Lemma created_inv_step (f : factory) (es : list entity) (d : boiler) :
  created_inv es d →
  (f = DeviceType → "Device_Type" ∉ map _param_name es) →
  created_inv (es ++ (run_factory f d).1) (run_factory f d).2.
Proof.
  intros (Hnd & Hid & Hused & Hfire) Hdt.
  pose proof (run_factory_extends f d) as Hx.
  pose proof Hx as (Hs & _ & _ & Hmono).
  assert (Hold : ∀ e, e ∈ es →
            _param_name e = "Device_Type"
            ∨ used (run_factory f d).2 !! _param_name e = Some true).
  { intros e He. destruct (Hused e He) as [?|?]; [by left | right; by apply Hmono]. }
  destruct (decide (f = DeviceType)) as [->|H1].
  { cbn [run_factory WebBoilerDeviceTypeSensor_create_entities fst snd] in *.
    split; [|split; [|split]].
    - rewrite map_app. apply NoDup_app. split; [done|]. split; [|apply NoDup_singleton].
      intros p Hp ->%list_elem_of_singleton. by apply Hdt.
    - intros e [He| ->%list_elem_of_singleton]%elem_of_app; [by apply Hid | done].
    - intros e [He| ->%list_elem_of_singleton]%elem_of_app; [by apply Hused | by left].
    - rewrite map_app. intros [Hin|Hin%list_elem_of_singleton]%elem_of_app;
        [by apply Hfire | done]. }
  destruct (decide (f = FireGrid)) as [->|H2].
  { cbn [run_factory] in *.
    destruct (fire_grid_spec d) as [_ [Hno|(Hone & Hnot & U1 & U2 & U3)]].
    - rewrite Hno. cbn [fst snd]. rewrite app_nil_r.
      exact (conj Hnd (conj Hid (conj Hused Hfire))).
    - rewrite Hone. split; [|split; [|split]].
      + rewrite map_app. apply NoDup_app. split; [done|].
        split; [|apply NoDup_singleton].
        intros p Hp ->%list_elem_of_singleton. cbn in Hp.
        apply Hnot. destruct (Hfire Hp) as [? ?].
        apply list_elem_of_fmap in Hp as (e & Hpe & He).
        destruct (Hused e He) as [Hd|Hu]; [congruence|]. rewrite <- Hpe in Hu. done.
      + intros e [He| ->%list_elem_of_singleton]%elem_of_app.
        * rewrite Hs. by apply Hid.
        * cbn. by rewrite Hs.
      + intros e [He| ->%list_elem_of_singleton]%elem_of_app; [by apply Hold|].
        right. exact U1.
      + done. }
  destruct (run_factory_claiming f d H1 H2) as (_ & Hnd' & Hes).
  split; [|split; [|split]].
  - rewrite map_app. apply NoDup_app. split; [done|]. split; [|done].
    intros p (e & -> & He)%list_elem_of_fmap (e' & Hp & He')%list_elem_of_fmap.
    destruct (Hes e' He') as (_ & _ & Hk & _ & Hn & _). rewrite <- Hp in Hk, Hn.
    destruct (Hused e He) as [Hd|Hu].
    + rewrite Hd in Hk. by apply keys_of_device_type in Hk.
    + apply get_used_true in Hu. congruence.
  - intros e [He|He]%elem_of_app.
    + rewrite Hs. by apply Hid.
    + rewrite Hs. by apply Hes.
  - intros e [He|He]%elem_of_app; [by apply Hold|]. right. by apply Hes.
  - rewrite map_app. intros [Hin|Hin]%elem_of_app.
    + destruct (Hfire Hin). split; by apply Hmono.
    + apply list_elem_of_fmap in Hin as (e & Hp & He).
      destruct (Hes e He) as (_ & _ & Hk & _). rewrite <- Hp in Hk.
      by apply keys_of_fire_grid in Hk.
Qed.

Lemma run_factories_inv (fs : list factory) (es : list entity) (d : boiler) :
  created_inv es d →
  (count_occ factory_eq_dec fs DeviceType ≤ 1)%nat →
  ("Device_Type" ∈ map _param_name es → DeviceType ∉ fs) →
  created_inv (es ++ (run_factories fs d).1) (run_factories fs d).2.
Proof.
  revert es d. induction fs as [|f fs IH]; intros es d Hinv Hcount Hdt;
    cbn [run_factories].
  - cbn [fst snd]. by rewrite app_nil_r.
  - pose proof (created_inv_step f es d Hinv) as Hstep.
    pose proof (run_factory_origin f d) as Horigin.
    destruct (run_factory f d) as [new d'].
    specialize (IH (es ++ new) d').
    destruct (run_factories fs d') as [rest d'']. cbn [fst snd] in *.
    rewrite app_assoc. apply IH.
    + apply Hstep. intros -> Hin. apply Hdt in Hin. apply Hin. by left.
    + simpl in Hcount. destruct (factory_eq_dec f DeviceType); lia.
    + rewrite map_app. intros [Hin|Hin]%elem_of_app.
      * intros Hfs. apply (Hdt Hin). by right.
      * apply list_elem_of_fmap in Hin as (e & Hp & He).
        destruct (Horigin e He) as [_ Hk]. rewrite <- Hp in Hk.
        destruct (decide (f = DeviceType)) as [->|Hne];
          [|by apply keys_of_device_type in Hk].
        simpl in Hcount. destruct (factory_eq_dec DeviceType DeviceType); [|done].
        intros Hfs%list_elem_of_In%(count_occ_In factory_eq_dec). lia.
Qed.

Lemma created_inv_empty (d : boiler) : created_inv [] d.
Proof.
  split; [constructor|].
  split; [intros e He; by apply elem_of_nil in He|].
  split; [intros e He; by apply elem_of_nil in He|].
  intros He. by apply elem_of_nil in He.
Qed.

Lemma created_inv_unique_ids (es : list entity) (d : boiler) :
  created_inv es d →
  NoDup (map unique_id es) ∧ NoDup (omap unique_id es).
Proof.
  intros (Hnd & Hid & _).
  assert (H1 : map unique_id es
               = map (λ p, Some (serial d +:+ "-" +:+ p)) (map _param_name es)).
  { rewrite map_map. apply map_ext_in. intros e He%list_elem_of_In. by apply Hid. }
  assert (H2 : omap unique_id es
               = map (λ p, serial d +:+ "-" +:+ p) (map _param_name es)).
  { clear Hnd H1. induction es as [|e es IH]; [done|]. simpl.
    rewrite (Hid e) by by left. simpl. f_equal. apply IH.
    intros e' He'. apply Hid. by right. }
  rewrite H1, H2. split; (apply NoDup_fmap_2; [|done]).
  - intros a b [= H]. by apply append_inj_r, append_inj_r in H.
  - intros a b H. by apply append_inj_r, append_inj_r in H.
Qed.

(** X19. Whatever the device and whatever factories are run on it, in any order
    and any number of times (the device-type factory at most once), the
    entities built have pairwise different unique ids; the de-duplication
    pass then hands them all over unchanged. *)
Theorem factories_distinct_unique_ids (fs : list factory) (device : boiler) :
  (count_occ factory_eq_dec fs DeviceType ≤ 1)%nat →
  NoDup (map unique_id (run_factories fs device).1)
  ∧ dedupe (run_factories fs device).1 = (run_factories fs device).1.
Proof.
  intros Hcount.
  pose proof (run_factories_inv fs [] device (created_inv_empty device) Hcount) as Hinv.
  rewrite app_nil_l in Hinv.
  destruct (created_inv_unique_ids _ _
              (Hinv (λ H, False_rect _ (proj1 (elem_of_nil _) H)))) as [H1 H2].
  split; [done|].
  rewrite dedupe_dedupe_from. apply dedupe_from_unique; [done|].
  intros uid _. apply not_elem_of_empty.
Qed.

(** X20. Running a factory other than the device-type one a second time on the
    same device builds nothing and leaves the device as it is: the first
    run has claimed everything the factory can claim. *)
Theorem factory_second_run_builds_nothing (f : factory) (device : boiler) :
  f ≠ DeviceType →
  run_factory f (run_factory f device).2 = ([], (run_factory f device).2).
Proof.
  intros Hf. destruct f; try done; cbn [run_factory].
  - apply create_from_again.
  - apply create_from_again.
  - unfold WebBoilerConfigurationSensor_create_entities.
    destruct (_device_has_parameter device "B_KONF") eqn:Hh; cbn [snd];
      [|by rewrite Hh].
    destruct (get_used device "B_KONF") eqn:Hu; cbn [negb snd].
    + by rewrite Hh, Hu.
    + assert (get_used (set_used "B_KONF" device) "B_KONF" = true) as ->.
      { apply get_used_true. apply lookup_insert_eq. }
      by destruct (_device_has_parameter (set_used "B_KONF" device) "B_KONF").
  - apply create_circuits_done. intros pf nm k Hin Hpf Hk.
    eapply create_circuits_settles; [exact Hin| |exact Hk].
    by rewrite (device_has_prefix_extends _ _ _
                  (proj1 (create_circuits_claiming circuits device))) in Hpf.
  - destruct (fire_grid_spec device) as [_ [Hno|(_ & _ & U1 & U2 & U3)]].
    + rewrite Hno. cbn [snd]. exact Hno.
    + unfold WebBoilerFireGridSensor_create_entities at 1.
      apply get_used_true in U1, U2, U3. rewrite U1, U2, U3. cbn [andb].
      by destruct (negb _).
  - unfold create_conf_entities at 1.
    assert (type (create_conf_entities device).2 = type device) as ->.
    { apply (run_factory_extends Conf). }
    unfold create_conf_entities. destruct (String.eqb (type device) "peltec2").
    + apply create_from_again.
    + done.
Qed.

(** X21. Whatever the order of the factories, an entity on [B_CMD] is an on/off
    sensor, one on [B_KONF] the configuration sensor and one on [B_resInd]
    the fire-grid sensor; no entity is ever built on [B_resDir], [B_resMax],
    [B_Time], [B_razina] or [PING]. *)
Theorem dedicated_parameters (fs : list factory) (device : boiler) (e : entity) :
  e ∈ (run_factories fs device).1 →
  (_param_name e = "B_CMD" → entity_class e = BinaryOnOffSensor)
  ∧ (_param_name e = "B_KONF" → entity_class e = ConfigurationSensor)
  ∧ (_param_name e = "B_resInd" → entity_class e = FireGridSensor)
  ∧ _param_name e ∉ ["B_resDir"; "B_resMax"; "B_Time"; "B_razina"; "PING"].
Proof.
  intros (f & d' & _ & He)%run_factories_app.
  destruct (run_factory_origin f d' e He) as [Hc Hk].
  apply (keys_of_checked (λ f k,
    (negb (String.eqb k "B_CMD") || bool_decide (class_of f = BinaryOnOffSensor))
    && (negb (String.eqb k "B_KONF") || bool_decide (class_of f = ConfigurationSensor))
    && (negb (String.eqb k "B_resInd") || bool_decide (class_of f = FireGridSensor))
    && negb (bool_decide (k ∈ ["B_resDir"; "B_resMax"; "B_Time"; "B_razina"; "PING"]))))
    in Hk; [|by vm_compute].
  rewrite <- Hc in Hk.
  apply andb_true_iff in Hk as [[[K1 K2]%andb_true_iff K3]%andb_true_iff K4].
  split; [|split; [|split]].
  - intros Hp. rewrite Hp in K1. simpl in K1. by apply bool_decide_eq_true in K1.
  - intros Hp. rewrite Hp in K2. simpl in K2. by apply bool_decide_eq_true in K2.
  - intros Hp. rewrite Hp in K3. simpl in K3. by apply bool_decide_eq_true in K3.
  - apply negb_true_iff, bool_decide_eq_false in K4. done.
Qed.

Lemma settled_not_built (fs : list factory) (keys : list string) (d : boiler) :
  "Device_Type" ∉ keys → "B_resInd" ∉ keys →
  (∀ k, k ∈ keys → settled d k) →
  ∀ e, e ∈ (run_factories fs d).1 → _param_name e ∉ keys.
Proof.
  intros Hdt Hfg. revert d. induction fs as [|f fs IH]; intros d Hall e He;
    cbn [run_factories] in He.
  - by apply elem_of_nil in He.
  - pose proof (run_factory_extends f d) as Hx.
    pose proof (run_factory_origin f d) as Horigin.
    assert (Hclaim : f ≠ DeviceType → f ≠ FireGrid →
              ∀ e, e ∈ (run_factory f d).1 →
                is_Some (used d !! _param_name e) ∧ get_used d (_param_name e) = false).
    { intros H1 H2 e' He'.
      destruct (run_factory_claiming f d H1 H2) as (_ & _ & Hes).
      by destruct (Hes e' He') as (_ & _ & _ & ? & ? & _). }
    destruct (run_factory f d) as [new d'].
    specialize (IH d'). destruct (run_factories fs d') as [rest d''].
    cbn [fst snd] in *. apply elem_of_app in He as [He|He].
    + intros Hin. destruct (Horigin e He) as [_ Hk].
      destruct (decide (f = DeviceType)) as [->|H1].
      { apply list_elem_of_singleton in Hk. congruence. }
      destruct (decide (f = FireGrid)) as [->|H2].
      { apply list_elem_of_singleton in Hk. congruence. }
      destruct (Hclaim H1 H2 e He) as [Hp Hn].
      destruct (Hall _ Hin) as [Habs|Hu]; [|congruence].
      apply has_parameter_true in Hp. congruence.
    + apply IH; [|done]. intros k Hk. eapply extends_settled; [exact Hx|by apply Hall].
Qed.

(** X22. With the on/off factory run first, as [async_setup_entry] does, every
    entity on one of its parameters ([B_CMD], the pumps, the heater, the
    fan flag, [K1B_onOff], [K1B_P]) is an on/off sensor, whatever factories
    follow: the heating-circuit factory builds no generic sensor on
    [K1B_onOff] or [K1B_P]. *)
Theorem binary_parameters_stay_binary (fs : list factory) (device : boiler)
    (e : entity) :
  e ∈ (run_factories (BinaryState :: fs) device).1 →
  _param_name e ∈ map fst binary_map →
  entity_class e = BinaryOnOffSensor.
Proof.
  cbn [run_factories run_factory]. intros He Hp.
  pose proof (run_factory_origin BinaryState device) as Horigin.
  pose proof (λ k, create_from_settles BinaryOnOffSensor [] binary_map device k)
    as Hsettled.
  cbn [run_factory] in Horigin. fold create_binary_state_entities in Hsettled.
  destruct (create_binary_state_entities device) as [new d'].
  pose proof (settled_not_built fs (map fst binary_map) d') as Hrest.
  destruct (run_factories fs d') as [rest d'']. cbn [fst snd] in *.
  apply elem_of_app in He as [He|He]; [by apply Horigin|].
  exfalso.
  eapply Hrest; [by apply (bool_decide_eq_false_1 _)
                |by apply (bool_decide_eq_false_1 _)| |exact He|exact Hp].
  intros k Hk. destruct (Hsettled k Hk) as [Hno|?]; [by apply elem_of_nil in Hno|done].
Qed.

(** * The further properties on concrete runs *)

(** [start()] with the login refused, and with everything working. *)
Lemma start_session_effect_witness :
  out (start (sys0, login_refused)) = Ok false
  ∧ (post (start (sys0, login_refused))).1 = sys0
  ∧ out (start (sys0, all_well.2)) = Ok true
  ∧ (post (start (sys0, all_well.2))).1 = with_last_refresh 1700000000 sys0.
Proof.
  destruct (start_session_effect sys0 login_refused) as [Hf _].
  destruct (start_session_effect sys0 all_well.2) as [_ Ht].
  split; [reflexivity|]. split; [apply Hf; reflexivity|].
  split; [reflexivity|]. apply Ht. reflexivity.
Defined.

(** [relogin()] with everything working, and with the re-authentication
    refused. *)
Lemma relogin_refresh_timestamp_witness :
  last_refresh_timestamp (post (relogin (sys0, all_well.2))).1 = 1700000001
  ∧ last_refresh_timestamp (post (relogin (sys0, login_refused))).1 = 1000.
Proof.
  destruct (relogin_refresh_timestamp sys0 all_well.2) as [Hyes _].
  destruct (relogin_refresh_timestamp sys0 login_refused) as [_ Hno].
  split.
  - apply Hyes. split; [reflexivity|]. split; [eexists; reflexivity | reflexivity].
  - apply Hno. intros [Habs _]. discriminate Habs.
Defined.


(** Two callbacks 99 seconds apart, the websocket connected at both. *)
Lemma refresh_not_repeated_witness :
  let e := connected_refresh_succeeds in
  let r1 := _on_interval 60 600 (sys0, e) in
  responses e (ncalls e) = Returns true
  ∧ clock e (nreads e) - last_refresh_timestamp sys0 > 600
  ∧ responses e (S (ncalls e)) = Returns true
  ∧ calls_of (emitted r1) = [IsWebsocketConnected; Refresh]
  ∧ last_refresh_timestamp (post r1).1 = 1601
  ∧ _on_interval 60 600 ((post r1).1, (post r1).2)
    = (Ok tt, after_connectivity_read (post r1).1 (post r1).2,
       [EvCall IsWebsocketConnected]).
Proof.
  assert (Hgt : clock connected_refresh_succeeds (nreads connected_refresh_succeeds)
                - last_refresh_timestamp sys0 > 600) by reflexivity.
  destruct (refresh_not_repeated_within_interval 60 600 sys0
              connected_refresh_succeeds eq_refl Hgt eq_refl)
    as (Hcalls & Hstamp & Hnext).
  split; [reflexivity|]. split; [exact Hgt|]. split; [reflexivity|].
  split; [exact Hcalls|]. split; [exact Hstamp|].
  apply Hnext; [reflexivity|]. vm_compute. discriminate.
Defined.


(** Unloading an account nobody set up. *)
Lemma unload_unknown_account_witness :
  hass_data hass0 !! conf_email entry0 = None
  ∧ emitted (async_unload_entry entry0 (hass0, login_refused))
    = [EvCall AsyncUnloadPlatforms]
  ∧ (post (async_unload_entry entry0 (hass0, login_refused))).1 = hass0
  ∧ timers (post (async_unload_entry entry0 (hass0, login_refused))).2
    = timers login_refused.
Proof.
  split; [reflexivity|].
  apply (unload_unknown_account entry0 hass0 login_refused eq_refl).
Defined.

(** Setup and unload with the server down. *)
Lemma setup_then_unload_witness :
  let r := async_unload_entry entry0 set_up in
  hass_data server_down.1 !! conf_email entry0 = None
  ∧ out r = Ok true
  ∧ hass_data (post r).1 = hass_data server_down.1
  ∧ timers (post r).2
    = <[3%nat := CbWatchdog 1 "user@example.org" "entry-1"]> (timers server_down.2).
Proof.
  destruct (setup_then_unload entry0 server_down.1 server_down.2
              eq_refl eq_refl eq_refl) as [Hret Htimers].
  destruct (Hret true eq_refl) as [Hout Hdata].
  split; [reflexivity|]. split; [exact Hout|]. split; [exact Hdata | exact Htimers].
Defined.

Lemma set_up_watchdog_inv : watchdog_inv "user@example.org" 1 set_up.
Proof.
  split; [reflexivity|]. eexists. split; [reflexivity|].
  intros i l en Hi.
  assert (Ht : timers set_up.2
               = <[3%nat := CbWatchdog 1 "user@example.org" "entry-1"]>
                   (<[2%nat := CbTick 0]> ∅)) by reflexivity.
  rewrite Ht in Hi.
  destruct (decide (i = 3%nat)) as [->|H3]; [left; reflexivity|].
  rewrite lookup_insert_ne in Hi by done.
  destruct (decide (i = 2%nat)) as [->|H2].
  - rewrite lookup_insert_eq in Hi. discriminate Hi.
  - rewrite lookup_insert_ne, lookup_empty in Hi by done. discriminate Hi.
Defined.

(** A watchdog tick, a watchdog start and another tick on the store of the
    account that was set up. *)
Lemma one_watchdog_witness :
  let ops := [WTick "entry-1"; WStart entry0; WTick "entry-1"] in
  watchdog_inv "user@example.org" 1 set_up
  ∧ reliable_unsub set_up.2
  ∧ (length (active_watchdogs "user@example.org"
               (run_watchdog_ops "user@example.org" 1 ops set_up).2) ≤ 1)%nat.
Proof.
  assert (Hrel : reliable_unsub set_up.2) by (intros i; reflexivity).
  destruct (one_watchdog_on_a_kept_store "user@example.org" 1
              [WTick "entry-1"; WStart entry0; WTick "entry-1"] set_up
              set_up_watchdog_inv) as [_ Hone].
  split; [exact set_up_watchdog_inv|]. split; [exact Hrel | exact (Hone Hrel)].
Defined.

(** Starting the watchdog again for the account that was set up. *)
Lemma watchdog_replaced_witness :
  let r := _start_or_replace_watchdog entry0 "user@example.org" set_up in
  let cb := CbWatchdog 1 "user@example.org" (entry_id entry0) in
  hass_data set_up.1 !! "user@example.org" = Some 1%nat
  ∧ out r = Ok tt
  ∧ emitted r = [EvUnsub 3; EvTrack (next_id set_up.2) cb]
  ∧ timers (post r).2
    = <[next_id set_up.2 := cb]>
        (if unsub_raises set_up.2 3 then timers set_up.2
         else delete 3%nat (timers set_up.2)).
Proof.
  assert (∃ st, stores set_up.1 !! 1%nat = Some st
                ∧ _watchdog_unsub st = Some 3%nat)
    as (st & Hst & Hu) by (eexists; split; reflexivity).
  destruct (watchdog_replaced_on_kept_store entry0 "user@example.org"
              set_up.1 set_up.2 1 st eq_refl Hst) as (Hout & Hev & _ & Htimers).
  rewrite Hu in Hev, Htimers.
  split; [reflexivity|]. split; [exact Hout|]. split; [exact Hev | exact Htimers].
Defined.

(** The first watchdog tick of the account that was set up with the server
    down schedules a reload. *)
Lemma watchdog_reload_decision_witness :
  reload_tasks (emitted (_tick 1 "entry-1" set_up)) = 1%nat.
Proof.
  assert (∃ st, stores set_up.1 !! 1%nat = Some st
                ∧ WEB_BOILER_CLIENT st = Some 0%nat
                ∧ _last_reload_ts st = Some 0)
    as (st & Hst & Hc & Hl) by (eexists; repeat split; reflexivity).
  destruct (watchdog_reload_decision 1 "entry-1" set_up.1 set_up.2 st 0 Hst Hc)
    as (Hiff & _ & _).
  apply Hiff. split.
  - exists WebsocketDisconnected.
    pose proof (reload_reason_disconnected st 0 (clock set_up.2 (nreads set_up.2))
                  set_up.1 (set_nreads (S (nreads set_up.2)) set_up.2)) as Hr.
    unfold out. rewrite Hr; [reflexivity|].
    intros Habs. vm_compute in Habs. discriminate Habs.
  - rewrite Hl. vm_compute. discriminate.
Defined.

(** Two boilers whose newest timestamp is neither the first nor the last
    one scanned: at an age of exactly ten minutes the data is not stale, a
    second later it is. *)
Lemma stale_threshold_witness :
  existsb uncaught (all_parameters (client_data (connected_with mixed_boilers) 0%nat))
  = false
  ∧ is_max_of
      (convertible (all_parameters (client_data (connected_with mixed_boilers) 0%nat)))
      (Some 1700000000)
  ∧ out (reload_reason started_store 0 (1700000000 + _STALE_SECONDS)
           (hass0, connected_with mixed_boilers)) = Ok None
  ∧ out (reload_reason started_store 0 (1700000000 + _STALE_SECONDS + 1)
           (hass0, connected_with mixed_boilers))
    = Ok (Some (StaleData (_STALE_SECONDS + 1))).
Proof.
  assert (Hmax : is_max_of
                   (convertible
                      (all_parameters (client_data (connected_with mixed_boilers) 0%nat)))
                   (Some 1700000000)).
  { simpl. split; [right; left; reflexivity|].
    intros z [<-|[<-|[<-|[]]]]; lia. }
  destruct (stale_exactly_beyond_threshold started_store 0 1700000000
              (1700000000 + _STALE_SECONDS) hass0 (connected_with mixed_boilers)
              eq_refl eq_refl Hmax) as [_ Hat].
  destruct (stale_exactly_beyond_threshold started_store 0 1700000000
              (1700000000 + _STALE_SECONDS + 1) hass0 (connected_with mixed_boilers)
              eq_refl eq_refl Hmax) as [Hbeyond _].
  split; [reflexivity|]. split; [exact Hmax|]. split.
  - apply Hat. vm_compute. discriminate.
  - apply Hbeyond. reflexivity.
Defined.

(** Two devices scanned in either order. *)
Lemma latest_order_independent_witness :
  all_parameters two_boilers ≡ₚ all_parameters two_boilers_swapped
  ∧ existsb uncaught (all_parameters two_boilers) = false
  ∧ latest_of two_boilers = latest_of two_boilers_swapped.
Proof.
  assert (Hp : all_parameters two_boilers ≡ₚ all_parameters two_boilers_swapped)
    by apply perm_swap.
  split; [exact Hp|]. split; [reflexivity|].
  apply (latest_order_independent two_boilers two_boilers_swapped Hp eq_refl).
Defined.

(** The entities of the PelTec device, built in setup order. *)
Lemma factories_distinct_witness :
  (count_occ factory_eq_dec setup_order DeviceType ≤ 1)%nat
  ∧ length (run_factories setup_order peltec).1 = 9%nat
  ∧ NoDup (map unique_id (run_factories setup_order peltec).1)
  ∧ dedupe (run_factories setup_order peltec).1
    = (run_factories setup_order peltec).1.
Proof.
  assert (Hc : (count_occ factory_eq_dec setup_order DeviceType ≤ 1)%nat)
    by (vm_compute; lia).
  split; [exact Hc|]. split; [reflexivity|].
  apply (factories_distinct_unique_ids setup_order peltec Hc).
Defined.

(** The heating-circuit factory twice on the PelTec device. *)
Lemma factory_second_run_witness :
  HeatingCircuits ≠ DeviceType
  ∧ length (run_factory HeatingCircuits peltec).1 = 3%nat
  ∧ run_factory HeatingCircuits (run_factory HeatingCircuits peltec).2
    = ([], (run_factory HeatingCircuits peltec).2).
Proof.
  assert (Hne : HeatingCircuits ≠ DeviceType) by discriminate.
  split; [exact Hne|]. split; [reflexivity|].
  apply (factory_second_run_builds_nothing HeatingCircuits peltec Hne).
Defined.

(** The [B_CMD] entity of the PelTec device. *)
Lemma dedicated_parameters_witness :
  let e := new_entity BinaryOnOffSensor peltec "Command Active" "B_CMD" in
  e ∈ (run_factories setup_order peltec).1
  ∧ (_param_name e = "B_CMD" → entity_class e = BinaryOnOffSensor)
  ∧ _param_name e ∉ ["B_resDir"; "B_resMax"; "B_Time"; "B_razina"; "PING"].
Proof.
  assert (He : new_entity BinaryOnOffSensor peltec "Command Active" "B_CMD"
               ∈ (run_factories setup_order peltec).1).
  { apply list_elem_of_In. vm_compute. left. reflexivity. }
  destruct (dedicated_parameters setup_order peltec _ He) as (Hcmd & _ & _ & Hnever).
  split; [exact He|]. split; [exact Hcmd | exact Hnever].
Defined.

(** The [K1B_P] entity of the PelTec device. *)
Lemma binary_parameters_witness :
  let e := new_entity BinaryOnOffSensor peltec "DHW Pump State" "K1B_P" in
  e ∈ (run_factories (BinaryState :: [Common; HeatingCircuits; Conf]) peltec).1
  ∧ _param_name e ∈ map fst binary_map
  ∧ entity_class e = BinaryOnOffSensor.
Proof.
  assert (He : new_entity BinaryOnOffSensor peltec "DHW Pump State" "K1B_P"
               ∈ (run_factories (BinaryState :: [Common; HeatingCircuits; Conf])
                    peltec).1).
  { apply list_elem_of_In. vm_compute. tauto. }
  assert (Hp : _param_name (new_entity BinaryOnOffSensor peltec "DHW Pump State" "K1B_P")
               ∈ map fst binary_map).
  { apply list_elem_of_In. vm_compute. tauto. }
  split; [exact He|]. split; [exact Hp|].
  apply (binary_parameters_stay_binary [Common; HeatingCircuits; Conf] peltec _ He Hp).
Defined.

(** Two entities with different unique ids. *)
Lemma dedupe_unique_witness :
  NoDup (omap unique_id (run_factories [BinaryState] peltec).1)
  ∧ dedupe (run_factories [BinaryState] peltec).1
    = (run_factories [BinaryState] peltec).1.
Proof.
  assert (Hnd : NoDup (omap unique_id (run_factories [BinaryState] peltec).1)).
  { apply (bool_decide_unpack _). vm_compute. exact I. }
  split; [exact Hnd|].
  apply (proj1 (dedupe_unique_unchanged (run_factories [BinaryState] peltec).1) Hnd).
Defined.
